(** * cr-cab-reviewers: a shallow embedding of [src/index.js]

    The action reads the urgency of a pull request from the check boxes of
    its description ([detectUrgency]), asks the CR Cab service for the
    reviewers available at that urgency ([fetchReviewers]), removes the
    author of the pull request, and picks one of the remaining reviewers
    with a seeded hash ([selectRandomReviewer]).

    The first half of the file holds the definitions, each translated from
    the function of the same name in [src/index.js]; the second half holds
    the lemmas and the theorems about them. *)

From Stdlib Require Import ZArith List Bool Ascii String Lia DecimalString.
From Stdlib Require Import Permutation DecimalPos.
Import ListNotations.

Set Warnings "-register-all".

Open Scope string_scope.
Open Scope Z_scope.

(** ** JavaScript values used by the action *)

Module JS.

(** A JavaScript string is a sequence of UTF-16 code units.  A character of
    a Rocq [string] stands for one code unit below 256, so the model covers
    the texts whose code units lie in that range. *)

Definition charCode (c : ascii) : Z := Z.of_nat (nat_of_ascii c).

Definition code_in (lo hi : nat) (c : ascii) : bool :=
  (Nat.leb lo (nat_of_ascii c) && Nat.leb (nat_of_ascii c) hi)%bool.

(** [WhiteSpace] and [LineTerminator] of ECMAScript below 256: TAB, LF, VT,
    FF, CR, SPACE and NO-BREAK SPACE.  [String.prototype.trim] and the
    regular expression class [\s] both use this set. *)
Definition isWhiteSpace (c : ascii) : bool :=
  (code_in 9 13 c || Nat.eqb (nat_of_ascii c) 32 || Nat.eqb (nat_of_ascii c) 160)%bool.

(** The regular expression atom [.]: any code unit but a line terminator. *)
Definition isDotChar (c : ascii) : bool :=
  negb (Nat.eqb (nat_of_ascii c) 10 || Nat.eqb (nat_of_ascii c) 13)%bool.

(** [String.prototype.toLowerCase] on one code unit below 256: the letters
    A-Z and the capital letters of Latin-1 (U+00C0..U+00DE but the
    multiplication sign U+00D7) move up by 32. *)
Definition lowerChar (c : ascii) : ascii :=
  if (code_in 65 90 c
      || (code_in 192 222 c && negb (Nat.eqb (nat_of_ascii c) 215)))%bool
  then ascii_of_nat (nat_of_ascii c + 32)
  else c.

Fixpoint toLowerCase (s : string) : string :=
  match s with
  | EmptyString => EmptyString
  | String c s' => String (lowerChar c) (toLowerCase s')
  end.

Fixpoint trimStart (s : string) : string :=
  match s with
  | EmptyString => EmptyString
  | String c s' => if isWhiteSpace c then trimStart s' else s
  end.

Fixpoint trimEnd (s : string) : string :=
  match s with
  | EmptyString => EmptyString
  | String c s' =>
      match trimEnd s' with
      | EmptyString => if isWhiteSpace c then EmptyString else String c EmptyString
      | t => String c t
      end
  end.

(** [s.trim()] *)
Definition trim (s : string) : string := trimEnd (trimStart s).

(** [hay.includes(needle)] *)
Fixpoint includes (needle hay : string) : bool :=
  (String.prefix needle hay
   || match hay with
      | EmptyString => false
      | String _ hay' => includes needle hay'
      end)%bool.

(** Every code unit of [s] passes [p]. *)
Fixpoint allChars (p : ascii -> bool) (s : string) : bool :=
  match s with
  | EmptyString => true
  | String c s' => (p c && allChars p s')%bool
  end.

(** [s.split(sep)] for a separator of one code unit: the pieces between the
    separators, in order; there is always at least one piece. *)
Fixpoint split (sep : ascii) (s : string) : list string :=
  match s with
  | EmptyString => [EmptyString]
  | String c s' =>
      if Ascii.eqb c sep then EmptyString :: split sep s'
      else match split sep s' with
           | piece :: pieces => String c piece :: pieces
           | [] => [String c EmptyString]
           end
  end.

(** A JavaScript number as the action meets one: [NaN], an infinity, or
    an integer.  [Int z] stands for the Number nearest to [z]: it is [z]
    itself for the integers a double holds, all those up to
    [Number.MAX_SAFE_INTEGER] in absolute value among them. *)
Inductive number : Type :=
| NaN
| Int (z : Z)
| Infinity (negative : bool).

Definition decimal (z : Z) : string := NilEmpty.string_of_int (Z.to_int z).

(** [Number.MAX_SAFE_INTEGER], 2^53 - 1: up to it, in absolute value, the
    numbers of JavaScript are the integers, and [String] writes them in
    decimal. *)
Definition MAX_SAFE_INTEGER : Z := 9007199254740991.

Definition isSafeInteger (n : Z) : bool := (Z.abs n <=? MAX_SAFE_INTEGER)%Z.

(** The double nearest to the integer [m >= 0], before any overflow: [m]
    cut to its 53 leading bits and rounded to the nearest, to the even one
    of two that are as near. *)
Definition roundToDouble (m : Z) : Z :=
  let bits := Z.log2 m + 1 in
  if bits <=? 53 then m
  else
    let shift := bits - 53 in
    let q := Z.shiftr m shift in
    let r := m - Z.shiftl q shift in
    let half := Z.shiftl 1 (shift - 1) in
    let q' := if ((half <? r) || ((r =? half) && Z.odd q))%bool then q + 1 else q in
    Z.shiftl q' shift.

(** The Number value for a mathematical integer: the nearest double, an
    infinity from 2^1024 on. *)
Definition toNumber (z : Z) : number :=
  let m := roundToDouble (Z.abs z) in
  if 2 ^ 1024 <=? m then Infinity (z <? 0) else Int (Z.sgn z * m).

Definition digitCount (m : Z) : Z := Z.of_nat (String.length (decimal m)).

(** [Number::toString] looks for the fewest digits [k] such that some
    [s] of [k] digits, followed by zeros up to [n] digits in all, is a
    number whose double is [d]; of several such [s] it takes the one
    nearest to [d], the even one of two that are as near.  For a given
    [k] only the two multiples of [10 ^ (size - k)] around [d] need to be
    looked at.  The result is [s] and [n]. *)
Definition shortestAt (d size k : Z) : option (Z * Z) :=
  let unit := 10 ^ (size - k) in
  let lo := (d / unit) * unit in
  let hi := lo + unit in
  let okLo := roundToDouble lo =? d in
  let okHi := roundToDouble hi =? d in
  let low := Some (lo / unit, size) in
  let high := if hi =? 10 ^ size then Some (10 ^ (k - 1), size + 1)
              else Some (hi / unit, size) in
  if (okLo && okHi)%bool then
    if d - lo <? hi - d then low
    else if hi - d <? d - lo then high
    else if Z.even (lo / unit) then low else high
  else if okLo then low
  else if okHi then high
  else None.

(** The search from [k] digits on; 17 digits are enough for any double. *)
Fixpoint shortest (fuel : nat) (d size k : Z) : Z * Z * Z :=
  match fuel with
  | O => (d, size, size)
  | S fuel' =>
      match shortestAt d size k with
      | Some (s, n) => (s, n, k)
      | None => shortest fuel' d size (k + 1)
      end
  end.

Fixpoint zeros (n : nat) : string :=
  match n with
  | O => EmptyString
  | S n' => String "0" (zeros n')
  end.

(** [Number::toString] for a double [d > 0] that is an integer: up to 21
    digits the digits of [s] and zeros, beyond them the notation with an
    exponent. *)
Definition doubleText (d : Z) : string :=
  let '(s, n, k) := shortest 17 d (digitCount d) 1 in
  if n <=? 21 then (decimal s ++ zeros (Z.to_nat (n - k)))%string
  else
    match decimal s with
    | EmptyString => EmptyString
    | String c EmptyString => String c ("e+" ++ decimal (n - 1))%string
    | String c rest => String c ("." ++ rest ++ "e+" ++ decimal (n - 1))%string
    end.

(** [String(n)] and the string a template literal puts for a number.  A
    safe integer is the only number whose double it is, so the digits
    found for it are its own and its text is its decimal text; the other
    integers are written as their doubles are. *)
Definition String_of (n : number) : string :=
  match n with
  | NaN => "NaN"
  | Infinity negative => if negative then "-Infinity" else "Infinity"
  | Int z =>
      if isSafeInteger z then decimal z
      else
        match toNumber z with
        | Int d => if d <? 0 then ("-" ++ doubleText (- d))%string else doubleText d
        | Infinity negative => if negative then "-Infinity" else "Infinity"
        | NaN => "NaN"
        end
  end.

Definition isDigit (c : ascii) : bool := code_in 48 57 c.

Definition digitValue (c : ascii) : Z := charCode c - 48.

(** The code units of a decimal text: the digits and the sign. *)
Definition isDecimalChar (c : ascii) : bool := (isDigit c || Ascii.eqb c "-")%bool.

(** The value of the longest prefix of decimal digits of [s], read after
    the digits [acc] already seen. *)
Fixpoint digitsPrefix (s : string) (acc : Z) : Z :=
  match s with
  | EmptyString => acc
  | String c s' => if isDigit c then digitsPrefix s' (10 * acc + digitValue c) else acc
  end.

Definition startsWithDigit (s : string) : bool :=
  match s with
  | EmptyString => false
  | String c _ => isDigit c
  end.

(** [parseInt(s, 10)]: leading white space is skipped, one sign is read,
    then the longest prefix of decimal digits; no digit gives [NaN].  With
    the radix given as 10 no [0x] prefix is recognised.  The result is
    the Number value for the integer read: ECMAScript lets an
    implementation replace the digits after the twentieth by zeros before
    it rounds, which the model does not do. *)
Definition parseInt10 (s : string) : number :=
  match trimStart s with
  | String "-" rest =>
      if startsWithDigit rest then toNumber (- digitsPrefix rest 0) else NaN
  | String "+" rest =>
      if startsWithDigit rest then toNumber (digitsPrefix rest 0) else NaN
  | rest =>
      if startsWithDigit rest then toNumber (digitsPrefix rest 0) else NaN
  end.

(** [ToInt32]: the 32-bit two's complement reading of an integer. *)
Definition ToInt32 (z : Z) : Z := (z + 2 ^ 31) mod 2 ^ 32 - 2 ^ 31.

(** [x << n] on numbers holding integers. *)
Definition shl (x n : Z) : Z := ToInt32 (Z.shiftl (ToInt32 x) (n mod 32)).

(** [x & y] on numbers holding integers. *)
Definition band (x y : Z) : Z := ToInt32 (Z.land (ToInt32 x) (ToInt32 y)).

(** An [Error] object: its [name] and its [message]. *)
Record error : Type := mkError { name : string; message : string }.

(** [new Error(msg)] *)
Definition Error (msg : string) : error := mkError "Error" msg.

(** How an expression or a call completes: with a value or by throwing. *)
Inductive completion (A : Type) : Type :=
| Normal (a : A)
| Throw (e : error).

Arguments Normal {A} a.
Arguments Throw {A} e.

End JS.

Import JS.

(** ** Regular expressions *)

Module Regex.

(** The fragment of regular expressions the action uses, over classes of
    code units, with the two constructors derivatives add ([Void], [Alt]). *)
Inductive regex : Type :=
| Void
| Eps
| Class (p : ascii -> bool)
| Seq (r1 r2 : regex)
| Alt (r1 r2 : regex)
| Star (r : regex).


Fixpoint nullable (r : regex) : bool :=
  match r with
  | Void => false
  | Eps => true
  | Class _ => false
  | Seq r1 r2 => nullable r1 && nullable r2
  | Alt r1 r2 => nullable r1 || nullable r2
  | Star _ => true
  end.

(** Brzozowski derivative of [r] by the code unit [c]. *)
Fixpoint deriv (c : ascii) (r : regex) : regex :=
  match r with
  | Void => Void
  | Eps => Void
  | Class p => if p c then Eps else Void
  | Seq r1 r2 =>
      if nullable r1
      then Alt (Seq (deriv c r1) r2) (deriv c r2)
      else Seq (deriv c r1) r2
  | Alt r1 r2 => Alt (deriv c r1) (deriv c r2)
  | Star r1 => Seq (deriv c r1) (Star r1)
  end.

(** Whether the whole of [s] is in the language of [r]. *)
Fixpoint matches (r : regex) (s : string) : bool :=
  match s with
  | EmptyString => nullable r
  | String c s' => matches (deriv c r) s'
  end.

Definition anyChar : regex := Class (fun _ => true).

(** [r.test(s)] for an expression with neither anchors nor flags: some
    substring of [s] is in the language of [r]. *)
Definition test (r : regex) (s : string) : bool :=
  matches (Seq (Star anyChar) (Seq r (Star anyChar))) s.

Definition oneOf (cs : string) : regex :=
  Class (fun c => existsb (Ascii.eqb c) (list_ascii_of_string cs)).

End Regex.

Import Regex.

(** ** Urgency detection: [detectUrgency] *)

Inductive UrgencyTier : Type := p0 | p1 | p2.

Definition tierString (u : UrgencyTier) : string :=
  match u with
  | p0 => "p0"
  | p1 => "p1"
  | p2 => "p2"
  end.

(** The pattern [/[-*]\s*\[[xX]\].*/] of the source. *)
Definition checkboxPattern : regex :=
  Seq (oneOf "-*")
    (Seq (Star (Class isWhiteSpace))
       (Seq (oneOf "[")
          (Seq (oneOf "xX")
             (Seq (oneOf "]")
                (Star (Class isDotChar)))))).

(** The guard of the loop body: the trimmed line passes the pattern.  The
    lines for which it holds are the candidate marker lines. *)
Definition isCandidateMarkerLine (line : string) : bool :=
  test checkboxPattern (trim line).

(** The three flags the loop sets. *)
Record found : Type := mkFound { foundP0 : bool; foundP1 : bool; foundP2 : bool }.

(** One turn of the loop over the lines. *)
Definition scanLine (checkboxP0 checkboxP1 checkboxP2 : string)
    (st : found) (line : string) : found :=
  let trimmed := trim line in
  if test checkboxPattern trimmed then
    let lowerLine := toLowerCase trimmed in
    let lowerP0 := toLowerCase checkboxP0 in
    let lowerP1 := toLowerCase checkboxP1 in
    let lowerP2 := toLowerCase checkboxP2 in
    if includes lowerP0 lowerLine then mkFound true (foundP1 st) (foundP2 st)
    else if includes lowerP1 lowerLine then mkFound (foundP0 st) true (foundP2 st)
    else if includes lowerP2 lowerLine then mkFound (foundP0 st) (foundP1 st) true
    else st
  else st.

Definition newline : ascii := ascii_of_nat 10.

Definition detectUrgency (prBody checkboxP0 checkboxP1 checkboxP2 : string)
    : UrgencyTier :=
  let lines := split newline prBody in
  let st :=
    fold_left (scanLine checkboxP0 checkboxP1 checkboxP2) lines
      (mkFound false false false) in
  if foundP0 st then p0
  else if foundP1 st then p1
  else if foundP2 st then p2
  else p2.

(** The trimmed line holds one of the three labels, letter case apart. *)
Definition holdsLabel (checkboxP0 checkboxP1 checkboxP2 line : string) : bool :=
  let lowerLine := toLowerCase (trim line) in
  (includes (toLowerCase checkboxP0) lowerLine
   || includes (toLowerCase checkboxP1) lowerLine
   || includes (toLowerCase checkboxP2) lowerLine)%bool.

(** No line of the description is both a candidate marker line and the
    holder of a label. *)
Definition noMarkerChecked (prBody checkboxP0 checkboxP1 checkboxP2 : string) : bool :=
  forallb
    (fun line =>
       negb (isCandidateMarkerLine line
             && holdsLabel checkboxP0 checkboxP1 checkboxP2 line))
    (split newline prBody).





(** ** Fetching the reviewers: [fetchReviewers] *)

(** A parsed JSON document.  Numbers are the integers; the fields of an
    object are listed in order and their keys are distinct. *)
Inductive json : Type :=
| JNull
| JBool (b : bool)
| JNumber (z : Z)
| JString (s : string)
| JArray (items : list json)
| JObject (fields : list (string * json)).

Definition quoteChar : ascii := ascii_of_nat 34.

Definition hexDigit (n : nat) : ascii :=
  if Nat.ltb n 10 then ascii_of_nat (48 + n) else ascii_of_nat (87 + n).

(** One code unit inside a quoted JSON string, as [JSON.stringify] writes it. *)
Definition escapeChar (c : ascii) : string :=
  let n := nat_of_ascii c in
  if Nat.eqb n 8 then "\b"
  else if Nat.eqb n 9 then "\t"
  else if Nat.eqb n 10 then "\n"
  else if Nat.eqb n 12 then "\f"
  else if Nat.eqb n 13 then "\r"
  else if Nat.eqb n 34 then String "\" (String quoteChar EmptyString)
  else if Nat.eqb n 92 then "\\"
  else if Nat.ltb n 32
       then "\u00" ++ String (hexDigit (n / 16)) (String (hexDigit (n mod 16)) EmptyString)
       else String c EmptyString.

Fixpoint escapeString (s : string) : string :=
  match s with
  | EmptyString => EmptyString
  | String c s' => escapeChar c ++ escapeString s'
  end.

Definition quoteJSON (s : string) : string :=
  String quoteChar (escapeString s ++ String quoteChar EmptyString).

Fixpoint join (sep : string) (parts : list string) : string :=
  match parts with
  | [] => EmptyString
  | [part] => part
  | part :: rest => part ++ sep ++ join sep rest
  end.

(** [JSON.stringify(v)] *)
Fixpoint stringify (v : json) : string :=
  match v with
  | JNull => "null"
  | JBool true => "true"
  | JBool false => "false"
  | JNumber z => decimal z
  | JString s => quoteJSON s
  | JArray items => "[" ++ join "," (map stringify items) ++ "]"
  | JObject fields =>
      "{" ++ join ","
               (map (fun kv => match kv with
                               | (k, v') => quoteJSON k ++ ":" ++ stringify v'
                               end) fields)
          ++ "}"
  end.

(** The truth value of a JSON value in a condition. *)
Definition truthy (v : json) : bool :=
  match v with
  | JNull => false
  | JBool b => b
  | JNumber z => negb (z =? 0)
  | JString s => negb (String.eqb s EmptyString)
  | JArray _ => true
  | JObject _ => true
  end.

Fixpoint lookupField (key : string) (fields : list (string * json)) : option json :=
  match fields with
  | [] => None
  | (k, v) :: rest => if String.eqb k key then Some v else lookupField key rest
  end.

(** [v.key] for a value that came out of [JSON.parse]: reading a property
    of [null] throws a [TypeError] (the message is the one of Node.js);
    only an object has the properties read here, every other value gives
    [undefined], which is [None]. *)
Definition getProperty (v : json) (key : string) : completion (option json) :=
  match v with
  | JNull =>
      Throw (mkError "TypeError"
               ("Cannot read properties of null (reading '" ++ key ++ "')"))
  | JObject fields => Normal (lookupField key fields)
  | _ => Normal None
  end.

(** What [fetch] hands back once awaited.  [body] is what awaiting
    [response.json()] gives: the parsed document, or the error it throws. *)
Record response : Type := mkResponse {
  ok : bool;
  status : Z;
  statusText : string;
  body : completion json
}.

(** A [Response] of the Fetch standard has [ok] set exactly for the
    statuses 200 to 299. *)
Definition responseWf (r : response) : Prop :=
  ok r = ((200 <=? status r) && (status r <=? 299))%bool.

(** An awaited [fetch] either resolves to a response or rejects. *)
Inductive fetchOutcome : Type :=
| Resolves (r : response)
| Rejects (e : error).

Record request : Type := mkRequest {
  url : string;
  method : string;
  headers : list (string * string)
}.

(** What a run does to the outside, in order: a call of [fetch], a line
    through [core.info] or [core.warning], a timer awaited. *)
Inductive event : Type :=
| Fetched (req : request)
| LogInfo (msg : string)
| LogWarning (msg : string)
| Slept (ms : Z).

(** How a turn of the retry loop ends. *)
Inductive control (A : Type) : Type :=
| Continue
| Return (a : A)
| Raise (e : error).

Arguments Continue {A}.
Arguments Return {A} a.
Arguments Raise {A} e.

Definition maxRetries : nat := 2.
Definition retryDelays : list Z := [250; 750].

(** [retryDelays[attempt]], [None] for [undefined]. *)
Definition delayAt (attempt : nat) : option Z := nth_error retryDelays attempt.

Definition delayText (d : option Z) : string :=
  match d with
  | Some ms => decimal ms
  | None => "undefined"
  end.

(** The timer [setTimeout(resolve, delay)] waits for; no delay is 0. *)
Definition delayMs (d : option Z) : Z :=
  match d with
  | Some ms => ms
  | None => 0
  end.

Definition attemptText (attempt : nat) : string :=
  "(attempt " ++ decimal (Z.of_nat attempt + 1) ++ "/"
    ++ decimal (Z.of_nat maxRetries) ++ ")".

Definition apiUrl (urgency : string) : string :=
  "https://cr-cab.com/api/reviewers/available?severity=" ++ urgency.

Definition fetchRequest (apiKey urgency : string) : request :=
  mkRequest (apiUrl urgency) "GET"
    [("Authorization", "Bearer " ++ apiKey); ("Content-Type", "application/json")].

(** The callback of [reviewerList.map]. *)
Definition normalizeReviewer (reviewer : json) : completion json :=
  match reviewer with
  | JString _ => Normal reviewer
  | _ =>
      let invalid :=
        Throw (Error ("Invalid reviewer format: " ++ stringify reviewer)) in
      if truthy reviewer then
        match getProperty reviewer "githubUsername" with
        | Normal (Some username) =>
            if truthy username then Normal username else invalid
        | Normal None => invalid
        | Throw e => Throw e
        end
      else invalid
  end.

(** [reviewerList.map(...)]: the first entry that throws ends the call. *)
Fixpoint normalizeReviewers (reviewerList : list json) : completion (list json) :=
  match reviewerList with
  | [] => Normal []
  | reviewer :: rest =>
      match normalizeReviewer reviewer with
      | Throw e => Throw e
      | Normal r =>
          match normalizeReviewers rest with
          | Throw e => Throw e
          | Normal rs => Normal (r :: rs)
          end
      end
  end.

(** The success branch of the [try] block, from [response.json()] on. *)
Definition parseReviewers (resp : response) : completion (list json) :=
  match body resp with
  | Throw e => Throw e
  | Normal data =>
      match data with
      | JArray items => normalizeReviewers items
      | _ =>
          match getProperty data "reviewers" with
          | Throw e => Throw e
          | Normal (Some (JArray items)) => normalizeReviewers items
          | Normal _ => Throw (Error "Invalid API response format")
          end
      end
  end.

(** The [try] block of one attempt, after [fetch] has been called.  The
    result of the function is [None] for [null]. *)
Definition tryBlock (failOnApiError : bool) (attempt : nat) (outcome : fetchOutcome)
    : list event * control (option (list json)) :=
  match outcome with
  | Rejects e => ([], Raise e)
  | Resolves resp =>
      let st := status resp in
      let is5xx := 500 <=? st in
      let is4xx := ((400 <=? st) && (st <? 500))%bool in
      if negb (ok resp) then
        if (is5xx && Nat.ltb attempt maxRetries)%bool then
          let delay := delayAt attempt in
          ([LogInfo ("CR Cab API returned " ++ decimal st ++ ", retrying in "
                       ++ delayText delay ++ "ms " ++ attemptText attempt);
            Slept (delayMs delay)],
           Continue)
        else if failOnApiError then
          ([], Raise (Error ("CR Cab API error: " ++ decimal st ++ " " ++ statusText resp)))
        else
          let errorMsg :=
            if is5xx
            then "CR Cab API unavailable (status=" ++ decimal st
                   ++ "). Skipping comment and continuing."
            else "CR Cab API error (status=" ++ decimal st
                   ++ "). Skipping comment and continuing." in
          ([LogWarning errorMsg], Return None)
      else
        match parseReviewers resp with
        | Normal reviewers => ([], Return (Some reviewers))
        | Throw e => ([], Raise e)
        end
  end.

(** The [catch] block of one attempt. *)
Definition catchBlock (failOnApiError : bool) (attempt : nat) (e : error)
    : list event * control (option (list json)) :=
  if (Nat.ltb attempt maxRetries
      && (String.eqb (name e) "TypeError" || includes "fetch" (message e)))%bool
  then
    let delay := delayAt attempt in
    ([LogInfo ("Network error, retrying in " ++ delayText delay ++ "ms "
                 ++ attemptText attempt);
      Slept (delayMs delay)],
     Continue)
  else if failOnApiError then
    ([], Raise (Error ("CR Cab API network error: " ++ message e)))
  else
    ([LogWarning "CR Cab API network error. Skipping comment and continuing."],
     Return None).

(** The body of the [for] loop: the call of [fetch], the [try] block, and
    the [catch] block when the [try] block throws. *)
Definition attemptBody (apiKey urgency : string) (failOnApiError : bool)
    (attempt : nat) (outcome : fetchOutcome)
    : list event * control (option (list json)) :=
  let (evs, c) := tryBlock failOnApiError attempt outcome in
  match c with
  | Raise e =>
      let (evs', c') := catchBlock failOnApiError attempt e in
      (Fetched (fetchRequest apiKey urgency) :: (evs ++ evs')%list, c')
  | _ => (Fetched (fetchRequest apiKey urgency) :: evs, c)
  end.

(** The code after the loop. *)
Definition afterLoop (failOnApiError : bool)
    : list event * completion (option (list json)) :=
  if negb failOnApiError then
    ([LogWarning "CR Cab API unavailable after retries. Skipping comment and continuing."],
     Normal None)
  else ([], Throw (Error "CR Cab API unavailable after retries")).

(** The loop [for (attempt = 0; attempt <= maxRetries; attempt++)], run for
    at most [turns] turns from [attempt] on.  [network k] is what the call
    of [fetch] number [k] of the run gives; every turn calls [fetch] once,
    so turn [attempt] meets [network attempt]. *)
Fixpoint retryLoop (network : nat -> fetchOutcome) (apiKey urgency : string)
    (failOnApiError : bool) (turns attempt : nat)
    : list event * completion (option (list json)) :=
  match turns with
  | O => afterLoop failOnApiError
  | S turns' =>
      if Nat.leb attempt maxRetries then
        let (evs, c) :=
          attemptBody apiKey urgency failOnApiError attempt (network attempt) in
        match c with
        | Continue =>
            let (evs', r) :=
              retryLoop network apiKey urgency failOnApiError turns' (S attempt) in
            ((evs ++ evs')%list, r)
        | Return v => (evs, Normal v)
        | Raise e => (evs, Throw e)
        end
      else afterLoop failOnApiError
  end.

(** [fetchReviewers(apiKey, urgency, failOnApiError)] against a network:
    the events of the run in order, and how the call completes.  The loop
    leaves after [maxRetries + 1] turns at the latest. *)
Definition fetchReviewers (network : nat -> fetchOutcome)
    (apiKey urgency : string) (failOnApiError : bool)
    : list event * completion (option (list json)) :=
  retryLoop network apiKey urgency failOnApiError (S maxRetries) 0.

(** The calls of [fetch] of a run. *)
Definition fetchCalls (evs : list event) : list request :=
  flat_map (fun ev => match ev with Fetched req => [req] | _ => [] end) evs.

(** The delays a run waited, in order. *)
Definition delays (evs : list event) : list Z :=
  flat_map (fun ev => match ev with Slept ms => [ms] | _ => [] end) evs.

(** The diagnostics of a run: what went through [core.info] and
    [core.warning], in order. *)
Definition diagnostics (evs : list event) : list string :=
  flat_map (fun ev => match ev with
                      | LogInfo msg => [msg]
                      | LogWarning msg => [msg]
                      | _ => []
                      end) evs.

Definition warnings (evs : list event) : list string :=
  flat_map (fun ev => match ev with LogWarning msg => [msg] | _ => [] end) evs.

(** ** Author exclusion in [run] *)

(** [availableReviewers.filter(reviewer => reviewer.toLowerCase() !==
    prAuthor.toLowerCase())] on a pool of strings: the pool [run] hands to
    the selector. *)
Definition eligibleReviewers (availableReviewers : list string) (prAuthor : string)
    : list string :=
  filter
    (fun reviewer => negb (String.eqb (toLowerCase reviewer) (toLowerCase prAuthor)))
    availableReviewers.

(** ** Selection: [selectRandomReviewer] *)

(** One turn of the hashing loop:
    [hash = ((hash << 5) - hash) + seedStr.charCodeAt(i); hash = hash & hash]. *)
Definition hashStep (hash : Z) (c : ascii) : Z :=
  let hash1 := (shl hash 5 - hash) + charCode c in
  band hash1 hash1.

(** The loop over the code units of [seedStr], from the left. *)
Fixpoint hashLoop (seedStr : string) (hash : Z) : Z :=
  match seedStr with
  | EmptyString => hash
  | String c rest => hashLoop rest (hashStep hash c)
  end.

(** [seed ? parseInt(seed, 10) : prNumber]: a string is true in a condition
    when it is not empty. *)
Definition randomSeed (seed : string) (prNumber : Z) : number :=
  if negb (String.eqb seed EmptyString) then parseInt10 seed else Int prNumber.

(** [selectRandomReviewer(reviewers, seed, prNumber)].  The value returned
    is [reviewers[index]]: [None] stands for [undefined], what an index
    outside the array gives.  [%] is the remainder of truncated division. *)
Definition selectRandomReviewer (reviewers : list string) (seed : string)
    (prNumber : Z) : completion (option string) :=
  if Nat.eqb (List.length reviewers) 0 then Throw (Error "No reviewers provided")
  else if Nat.eqb (List.length reviewers) 1 then Normal (nth_error reviewers 0)
  else
    let seedStr := String_of (randomSeed seed prNumber) in
    let hash := hashLoop seedStr 0 in
    let index := Z.rem (Z.abs hash) (Z.of_nat (List.length reviewers)) in
    Normal (nth_error reviewers (Z.to_nat index)).

(** The selection as the specification words it, written without the
    functions of the code: the integer a seed is parsed as, the decimal
    text of an integer, the hash and the index. *)
Module SelectorSpec.

(** Wrap-around of 32-bit signed integers. *)
Definition wrapSigned32 (z : Z) : Z :=
  let m := z mod 2 ^ 32 in
  if m <? 2 ^ 31 then m else m - 2 ^ 32.

(** [hash = (hash * 31 + charCode)] with 32-bit signed wrap-around, over
    the characters of the text from the left. *)
Fixpoint hashOf (text : string) (hash : Z) : Z :=
  match text with
  | EmptyString => hash
  | String c rest => hashOf rest (wrapSigned32 (hash * 31 + charCode c))
  end.

(** The decimal digit a character is. *)
Definition digitOf (c : ascii) : option Z :=
  let code := Z.of_nat (nat_of_ascii c) in
  if ((48 <=? code) && (code <=? 57))%bool then Some (code - 48) else None.

(** The digits a text begins with. *)
Fixpoint leadingDigits (text : string) : list Z :=
  match text with
  | EmptyString => []
  | String c rest =>
      match digitOf c with
      | Some d => d :: leadingDigits rest
      | None => []
      end
  end.

(** The integer that digits write, the most significant first. *)
Definition valueOf (digits : list Z) : Z :=
  fold_left (fun value d => 10 * value + d) digits 0.

Fixpoint skipSpace (text : string) : string :=
  match text with
  | EmptyString => EmptyString
  | String c rest => if isWhiteSpace c then skipSpace rest else text
  end.

(** A seed parsed as an integer: white space, a sign, then digits; what
    follows the digits is not read, and a seed without a digit there is
    no integer. *)
Definition integerOf (seed : string) : option Z :=
  let (negative, body) :=
    match skipSpace seed with
    | String "-" rest => (true, rest)
    | String "+" rest => (false, rest)
    | rest => (false, rest)
    end in
  match leadingDigits body with
  | [] => None
  | digits => Some (if negative then - valueOf digits else valueOf digits)
  end.

(** The effective seed: the explicit seed parsed as an integer when one is
    supplied, else the pull-request number. *)
Definition effectiveSeed (seed : string) (prNumber : Z) : option Z :=
  match seed with
  | EmptyString => Some prNumber
  | _ => integerOf seed
  end.

Definition digitChar (d : Z) : ascii := ascii_of_nat (Z.to_nat (48 + d)).

(** The decimal digits of [n >= 0] by repeated division, the least
    significant first. *)
Fixpoint digitsFromLeast (fuel : nat) (n : Z) : list ascii :=
  match fuel with
  | O => []
  | S fuel' =>
      digitChar (n mod 10)
      :: (if n <? 10 then [] else digitsFromLeast fuel' (n / 10))
  end.

(** The decimal-string representation of an integer: its digits, the most
    significant first, after a minus sign when it is negative. *)
Definition decimalText (n : Z) : string :=
  let m := Z.abs n in
  let digits :=
    string_of_list_ascii (rev (digitsFromLeast (S (Z.to_nat (Z.log2 m))) m)) in
  if n <? 0 then String "-" digits else digits.

(** [abs(hash) mod listLength], the hash being the one of the decimal
    text of the effective seed. *)
Definition indexOf (effective : Z) (listLength : nat) : nat :=
  Z.to_nat (Z.abs (hashOf (decimalText effective) 0) mod Z.of_nat listLength).

End SelectorSpec.

(** The digits of [SelectorSpec.digitsFromLeast] as a number in decimal of
    the standard library, the least significant digit first. *)
Definition digitLeast (r : Z) (rest : Decimal.uint) : Decimal.uint :=
  match r with
  | 0 => Decimal.D0 rest
  | 1 => Decimal.D1 rest
  | 2 => Decimal.D2 rest
  | 3 => Decimal.D3 rest
  | 4 => Decimal.D4 rest
  | 5 => Decimal.D5 rest
  | 6 => Decimal.D6 rest
  | 7 => Decimal.D7 rest
  | 8 => Decimal.D8 rest
  | _ => Decimal.D9 rest
  end.

Fixpoint leastFirst (fuel : nat) (n : Z) : Decimal.uint :=
  match fuel with
  | O => Decimal.Nil
  | S fuel' =>
      digitLeast (n mod 10)
        (if n <? 10 then Decimal.Nil else leastFirst fuel' (n / 10))
  end.

(** The list the reviewer of a large seed is picked from. *)
Definition fiveReviewers : list string := ["r1"; "r2"; "r3"; "r4"; "r5"].

(** The fixed pieces of text of the messages [fetchReviewers] passes to
    [core.info] and [core.warning]; the other pieces are decimal numbers
    (a status, a delay, the number of an attempt). *)
Definition diagnosticTexts : list string :=
  ["CR Cab API returned "; ", retrying in "; "ms "; "(attempt "; "/"; ")";
   "CR Cab API unavailable (status="; "). Skipping comment and continuing.";
   "CR Cab API error (status=";
   "Network error, retrying in ";
   "CR Cab API network error. Skipping comment and continuing.";
   "CR Cab API unavailable after retries. Skipping comment and continuing.";
   "undefined"].

(** The code units a diagnostic of [fetchReviewers] can hold. *)
Definition isDiagnosticChar (c : ascii) : bool :=
  (isDecimalChar c
   || existsb (fun text => existsb (Ascii.eqb c) (list_ascii_of_string text))
        diagnosticTexts)%bool.

(** Every diagnostic among the events is made of those code units. *)
Definition wellWorded (evs : list event) : Prop :=
  Forall (fun msg => allChars isDiagnosticChar msg = true) (diagnostics evs).




(** ** Sample runs *)

(** A network that gives the same outcome to every call. *)
Definition always (outcome : fetchOutcome) : nat -> fetchOutcome := fun _ => outcome.

Definition internalServerError : response :=
  mkResponse false 500 "Internal Server Error" (Normal (JObject [])).

Definition notFound : response :=
  mkResponse false 404 "Not Found" (Normal (JObject [])).

(** A 404 whose reason phrase holds the letters [fetch]. *)
Definition prefetchNotFound : response :=
  mkResponse false 404 "Prefetch target not found" (Normal (JObject [])).


(** ** Marked lines *)

(** The line is a candidate marker line and its trimmed text holds the
    label, letter case apart: the condition under which the loop of
    [detectUrgency] looks at the flag of that label. *)
Definition lineMarks (label line : string) : bool :=
  (isCandidateMarkerLine line
   && includes (toLowerCase label) (toLowerCase (trim line)))%bool.

(** Some line of the description marks the label. *)
Definition someLineMarks (label prBody : string) : bool :=
  existsb (lineMarks label) (split newline prBody).

(** The second line is the first one with white space before and after. *)
Definition paddedLine (line padded : string) : Prop :=
  exists before after,
    allChars isWhiteSpace before = true /\ allChars isWhiteSpace after = true
    /\ padded = before ++ line ++ after.

(** ** Identities in a payload *)

(** The entry of a payload carries the identity [name]: it is that string,
    or a record whose [githubUsername] field holds that string, not
    empty. *)
Definition carries (entry : json) (name : string) : Prop :=
  entry = JString name
  \/ exists fields,
       entry = JObject fields
       /\ lookupField "githubUsername" fields = Some (JString name)
       /\ name <> "".

(** The body has one of the two shapes of a payload, with these entries. *)
Definition payloadOf (data : json) (items : list json) : Prop :=
  data = JArray items
  \/ exists fields,
       data = JObject fields /\ lookupField "reviewers" fields = Some (JArray items).

(** The two success answers of the repository's tests, for the same two
    reviewers. *)
Definition bareArrayAnswer : response :=
  mkResponse true 200 "OK" (Normal (JArray [JString "reviewer1"; JString "reviewer2"])).

Definition recordAnswer : response :=
  mkResponse true 200 "OK"
    (Normal (JObject
               [("reviewers",
                 JArray [JObject [("githubUsername", JString "reviewer1")];
                         JObject [("githubUsername", JString "reviewer2")]]);
                ("count", JNumber 2)])).

(** A failure of the service, then a success answer. *)
Definition failsOnce (n : nat) : fetchOutcome :=
  match n with
  | O => Resolves internalServerError
  | _ => Resolves bareArrayAnswer
  end.

(** What [fetch] rejects with in the repository's tests. *)
Definition failedToFetch : error := mkError "TypeError" "Failed to fetch".

(** A rejection that is no [TypeError] and does not speak of [fetch]. *)
Definition aborted : error := mkError "AbortError" "This operation was aborted".

(** ** The action: [run] *)

(** What a run is given from outside: the inputs of the workflow step by
    name (the empty string for an input that is not set), the variable
    [GITHUB_TOKEN] of the process, the event and its pull request, the
    repository, the CR Cab service, and what awaiting the call that
    requests the review gives. *)
Record environment : Type := mkEnvironment {
  envInput : string -> string;
  envToken : option string;
  envEventName : string;
  envPullNumber : Z;
  envPullBody : option string;
  envPullAuthor : string;
  envRepoOwner : string;
  envRepoName : string;
  envService : nat -> fetchOutcome;
  envReviewRequest : completion unit
}.

(** What [run] does to the outside: an event of [fetchReviewers] or a line
    of [run] itself through [core.info] or [core.warning], the masking of a
    secret, the failure of the step, the request of a review. *)
Inductive action : Type :=
| Did (ev : event)
| SetSecret (secret : string)
| SetFailed (msg : string)
| RequestReviewers (owner repo : string) (pull_number : Z)
    (reviewers : list (option string)).

(** [core.getInput(name)] of [@actions/core]: the input, trimmed. *)
Definition getInput (env : environment) (inputName : string) : string :=
  trim (envInput env inputName).

(** [core.getInput(name, { required: true })]: an input that is not set
    throws. *)
Definition getRequiredInput (env : environment) (inputName : string)
    : completion string :=
  if String.eqb (envInput env inputName) ""
  then Throw (Error ("Input required and not supplied: " ++ inputName))
  else Normal (trim (envInput env inputName)).

(** [text || fallback] on strings. *)
Definition orElse (text fallback : string) : string :=
  if String.eqb text "" then fallback else text.

(** The text a template literal puts for a value that may be [undefined]. *)
Definition textOf (v : option string) : string :=
  match v with
  | Some text => text
  | None => "undefined"
  end.

(** [availableReviewers.filter(reviewer => reviewer.toLowerCase() !==
    prAuthor.toLowerCase())] on what [fetchReviewers] returned: an entry
    that is no string has no [toLowerCase] to call, which throws a
    [TypeError] (the message is the one of Node.js). *)
Fixpoint filterEligible (availableReviewers : list json) (prAuthor : string)
    : completion (list string) :=
  match availableReviewers with
  | [] => Normal []
  | JString reviewer :: rest =>
      match filterEligible rest prAuthor with
      | Throw e => Throw e
      | Normal eligible =>
          if negb (String.eqb (toLowerCase reviewer) (toLowerCase prAuthor))
          then Normal (reviewer :: eligible)
          else Normal eligible
      end
  | _ :: _ => Throw (mkError "TypeError" "reviewer.toLowerCase is not a function")
  end.

(** [core.getInput('token') || process.env.GITHUB_TOKEN], then [!token]. *)
Definition tokenMissing (env : environment) : bool :=
  (String.eqb (getInput env "token") ""
   && match envToken env with
      | Some token => String.eqb token ""
      | None => true
      end)%bool.

(** The body of the [try] block of [run]: the actions in order, and
    whether the block ends or throws. *)
Definition runSteps (env : environment) : list action * completion unit :=
  match getRequiredInput env "cr_cab_api_key" with
  | Throw e => ([], Throw e)
  | Normal apiKey =>
      let checkboxP0 := orElse (getInput env "checkbox_p0_text") "P0" in
      let checkboxP1 := orElse (getInput env "checkbox_p1_text") "P1" in
      let checkboxP2 := orElse (getInput env "checkbox_p2_text") "P2" in
      let seed := getInput env "seed" in
      let failOnApiError := String.eqb (getInput env "failOnApiError") "true" in
      if negb (String.eqb (envEventName env) "pull_request") then
        ([SetSecret apiKey;
          SetFailed "This action only works on pull_request events"],
         Normal tt)
      else
        let prNumber := envPullNumber env in
        let prBody := match envPullBody env with Some text => text | None => "" end in
        let prAuthor := envPullAuthor env in
        let urgency := tierString (detectUrgency prBody checkboxP0 checkboxP1 checkboxP2) in
        let begun :=
          [SetSecret apiKey;
           Did (LogInfo ("Processing PR #" ++ decimal prNumber ++ " by @" ++ prAuthor));
           Did (LogInfo ("Detected urgency: " ++ urgency))] in
        let (fetched, result) :=
          fetchReviewers (envService env) apiKey urgency failOnApiError in
        let asked := (begun ++ map Did fetched)%list in
        let noReviewers :=
          ((asked ++ [Did (LogWarning ("No reviewers available for " ++ urgency))])%list,
           Normal tt) in
        match result with
        | Throw error =>
            if failOnApiError then (asked, Throw error)
            else ((asked ++ [Did (LogWarning ("Failed to fetch reviewers: "
                                               ++ message error))])%list,
                  Normal tt)
        | Normal None => noReviewers
        | Normal (Some availableReviewers) =>
            if Nat.eqb (List.length availableReviewers) 0 then noReviewers
            else
              let found :=
                (asked ++ [Did (LogInfo ("Found "
                                         ++ decimal (Z.of_nat (List.length availableReviewers))
                                         ++ " available reviewers"))])%list in
              match filterEligible availableReviewers prAuthor with
              | Throw e => (found, Throw e)
              | Normal eligible =>
                  if Nat.eqb (List.length eligible) 0 then
                    ((found ++ [Did (LogWarning
                                       "No eligible reviewers (all are the PR author)")])%list,
                     Normal tt)
                  else
                    match selectRandomReviewer eligible seed prNumber with
                    | Throw e => (found, Throw e)
                    | Normal selectedReviewer =>
                        let chosen :=
                          (found ++ [Did (LogInfo ("Selected reviewer: @"
                                                   ++ textOf selectedReviewer))])%list in
                        if tokenMissing env then
                          ((chosen ++ [SetFailed "GitHub token is required"])%list,
                           Normal tt)
                        else
                          let requested :=
                            (chosen ++ [RequestReviewers (envRepoOwner env)
                                          (envRepoName env) prNumber
                                          [selectedReviewer]])%list in
                          match envReviewRequest env with
                          | Throw e => (requested, Throw e)
                          | Normal _ =>
                              ((requested
                                  ++ [Did (LogInfo ("Successfully requested review from @"
                                                    ++ textOf selectedReviewer))])%list,
                               Normal tt)
                          end
                    end
              end
        end
  end.

(** [run()]: the [try] block, and [core.setFailed(error.message)] for what
    it throws. *)
Definition run (env : environment) : list action :=
  let (done, ending) := runSteps env in
  match ending with
  | Normal _ => done
  | Throw error => (done ++ [SetFailed (message error)])%list
  end.

(** The reviews a run requests, the failures it reports and the requests
    it sends to the service. *)
Definition reviewRequests (acts : list action)
    : list (string * string * Z * list (option string)) :=
  flat_map (fun act => match act with
                       | RequestReviewers owner repo number reviewers =>
                           [(owner, repo, number, reviewers)]
                       | _ => []
                       end) acts.

Definition failures (acts : list action) : list string :=
  flat_map (fun act => match act with SetFailed msg => [msg] | _ => [] end) acts.

Definition serviceCalls (acts : list action) : list request :=
  flat_map (fun act => match act with Did (Fetched req) => [req] | _ => [] end) acts.

(** The end-to-end example of the specification: the three boxes checked,
    a pool of [alice] and [bob] in records, the author [alice]. *)
Definition exampleEnvironment : environment :=
  mkEnvironment
    (fun inputName =>
       if String.eqb inputName "cr_cab_api_key" then "test-api-key" else "")
    (Some "ghs_token")
    "pull_request"
    42
    (Some ("- [x] P0" ++ String newline ("- [x] P1" ++ String newline "- [x] P2")))
    "alice"
    "crCab" "demo"
    (always (Resolves
               (mkResponse true 200 "OK"
                  (Normal (JArray [JObject [("githubUsername", JString "alice")];
                                   JObject [("githubUsername", JString "bob")]])))))
    (Normal tt).

(** The same run against a service that gives a number for an identity. *)
Definition numberedEnvironment : environment :=
  mkEnvironment
    (envInput exampleEnvironment) (envToken exampleEnvironment)
    "pull_request" 42 (envPullBody exampleEnvironment) "alice" "crCab" "demo"
    (always (Resolves
               (mkResponse true 200 "OK"
                  (Normal (JArray [JObject [("githubUsername", JNumber 42)]])))))
    (Normal tt).

(** The same run against a service that is down, lenient and strict. *)
Definition downEnvironment (strict : bool) : environment :=
  mkEnvironment
    (fun inputName =>
       if String.eqb inputName "cr_cab_api_key" then "test-api-key"
       else if String.eqb inputName "failOnApiError"
            then (if strict then "true" else "false")
            else "")
    (envToken exampleEnvironment)
    "pull_request" 42 (envPullBody exampleEnvironment) "alice" "crCab" "demo"
    (always (Resolves internalServerError))
    (Normal tt).

(** ** The first revision of [fetchReviewers] *)

(** [fetchReviewers(apiKey, urgency)] as the first revision in
    [src/index.js] has it: one request, for which the network is asked
    once; an error status and a rejection are thrown on, and the array of
    the payload is returned as it came. *)
Definition fetchReviewersOriginal (network : nat -> fetchOutcome)
    (apiKey urgency : string) : list event * completion (list json) :=
  ([Fetched (fetchRequest apiKey urgency)],
   match network 0%nat with
   | Rejects e => Throw e
   | Resolves resp =>
       if negb (ok resp) then
         Throw (Error ("CR Cab API error: " ++ decimal (status resp) ++ " "
                         ++ statusText resp))
       else
         match body resp with
         | Throw e => Throw e
         | Normal data =>
             match data with
             | JArray items => Normal items
             | _ =>
                 match getProperty data "reviewers" with
                 | Throw e => Throw e
                 | Normal (Some (JArray items)) => Normal items
                 | Normal _ => Throw (Error "Invalid API response format")
                 end
             end
         end
   end).

(** * Lemmas and theorems *)

(** ** Strings *)

Lemma append_assoc (s1 s2 s3 : string) : (s1 ++ s2) ++ s3 = s1 ++ s2 ++ s3.
Proof. induction s1 as [|c s1 IH]; simpl; [reflexivity | now rewrite IH]. Qed.


Lemma allChars_append p (s1 s2 : string) :
  allChars p (s1 ++ s2) = (allChars p s1 && allChars p s2)%bool.
Proof.
  induction s1 as [|c s1 IH]; simpl; [reflexivity |].
  now rewrite IH, andb_assoc.
Qed.

(** [trimStart] removes a run of white space and nothing else. *)
Lemma trimStart_split (s : string) :
  exists ws, s = ws ++ trimStart s /\ allChars isWhiteSpace ws = true.
Proof.
  induction s as [|c s [ws [E W]]]; simpl.
  - exists ""; auto.
  - destruct (isWhiteSpace c) eqn:C.
    + exists (String c ws); simpl. rewrite C, W. split; [now rewrite <- E | reflexivity].
    + exists ""; auto.
Qed.

Lemma trimStart_skips (ws s : string) :
  allChars isWhiteSpace ws = true -> trimStart (ws ++ s) = trimStart s.
Proof.
  induction ws as [|c ws IH]; simpl; [reflexivity |].
  intros H; apply andb_true_iff in H as [C W]. now rewrite C, IH.
Qed.

Lemma prefix_append (n post : string) : String.prefix n (n ++ post) = true.
Proof.
  induction n as [|c n IH]; simpl; [now destruct post |].
  destruct (ascii_dec c c); [exact IH | contradiction].
Qed.

Lemma includes_here (n h : string) : String.prefix n h = true -> includes n h = true.
Proof. intros H. destruct h; simpl in *; now rewrite H. Qed.

Lemma includes_later (n pre h : string) :
  includes n h = true -> includes n (pre ++ h) = true.
Proof.
  intros H. induction pre as [|c pre IH]; simpl; [exact H |].
  rewrite IH. apply orb_true_r.
Qed.

(** A text includes each of its parts. *)
Lemma includes_part (n pre post : string) : includes n (pre ++ n ++ post) = true.
Proof. apply includes_later, includes_here, prefix_append. Qed.

Lemma prefix_allChars p (n h : string) :
  String.prefix n h = true -> allChars p h = true -> allChars p n = true.
Proof.
  revert h. induction n as [|c n IH]; intros h; [reflexivity |].
  destruct h as [|d h]; simpl; [discriminate |].
  destruct (ascii_dec c d) as [-> |]; [| discriminate].
  intros P A. apply andb_true_iff in A as [-> A]. simpl. eauto.
Qed.

(** Every code unit of an included text is one of the including text. *)
Lemma includes_allChars p (n h : string) :
  includes n h = true -> allChars p h = true -> allChars p n = true.
Proof.
  induction h as [|d h IH]; cbn [includes]; intros I A.
  - rewrite orb_false_r in I. exact (prefix_allChars p n "" I A).
  - apply orb_true_iff in I as [I | I].
    + exact (prefix_allChars p n _ I A).
    + simpl in A. apply andb_true_iff in A as [_ A]. auto.
Qed.

Lemma prefix_split_at (c : ascii) (n pre rest : string) :
  allChars (fun x => negb (Ascii.eqb x c)) n = true ->
  String.prefix n (pre ++ String c rest) = String.prefix n pre.
Proof.
  revert pre. induction n as [|a n IH]; intros pre A.
  - now destruct pre.
  - simpl in A. apply andb_true_iff in A as [Ha A].
    apply negb_true_iff, Ascii.eqb_neq in Ha.
    destruct pre as [|p pre]; simpl.
    + destruct (ascii_dec a c); [contradiction | reflexivity].
    + destruct (ascii_dec a p); [now apply IH | reflexivity].
Qed.

(** A text that lacks the code unit [c] is included in a text cut at [c]
    when it is included in one of the two sides. *)
Lemma includes_split_at (c : ascii) (n pre rest : string) :
  n <> "" ->
  allChars (fun x => negb (Ascii.eqb x c)) n = true ->
  includes n (pre ++ String c rest) = (includes n pre || includes n rest)%bool.
Proof.
  intros Hn A. induction pre as [|p pre IH].
  - destruct n as [|a n]; [contradiction |].
    pose proof (prefix_split_at c (String a n) "" rest A) as P.
    cbn [append] in *. cbn [includes]. rewrite P. reflexivity.
  - pose proof (prefix_split_at c n (String p pre) rest A) as P.
    cbn [append] in *. cbn [includes]. rewrite P, IH.
    now rewrite !orb_assoc.
Qed.

(** The decimal text of an integer is made of digits and of the sign. *)
Lemma decimal_chars (z : Z) : allChars isDecimalChar (decimal z) = true.
Proof.
  assert (U : forall u, allChars isDecimalChar (NilEmpty.string_of_uint u) = true)
    by (induction u; simpl; auto).
  unfold decimal. destruct (Z.to_int z); simpl; auto.
Qed.

(** ** Regular expressions: the matcher decides the language *)










(** ** The check-box pattern *)







(** ** Urgency detection *)

(** A line that is no candidate marker line leaves the flags as they are. *)
Lemma scanLine_not_candidate cb0 cb1 cb2 st line :
  isCandidateMarkerLine line = false -> scanLine cb0 cb1 cb2 st line = st.
Proof.
  unfold isCandidateMarkerLine, scanLine. cbv zeta. now intros ->.
Qed.

(** So does a candidate marker line that holds none of the labels. *)
Lemma scanLine_no_label cb0 cb1 cb2 st line :
  holdsLabel cb0 cb1 cb2 line = false -> scanLine cb0 cb1 cb2 st line = st.
Proof.
  unfold holdsLabel, scanLine. cbv zeta. intros H.
  apply orb_false_iff in H as [H H2]. apply orb_false_iff in H as [H0 H1].
  rewrite H0, H1, H2. now destruct (test checkboxPattern (trim line)).
Qed.

Lemma scan_unmarked cb0 cb1 cb2 (lines : list string) st :
  forallb (fun line => negb (isCandidateMarkerLine line && holdsLabel cb0 cb1 cb2 line))
    lines = true ->
  fold_left (scanLine cb0 cb1 cb2) lines st = st.
Proof.
  revert st. induction lines as [|line lines IH]; intros st H; simpl in *.
  - reflexivity.
  - apply andb_true_iff in H as [H Hs]. rewrite IH by assumption.
    apply negb_true_iff, andb_false_iff in H as [H | H].
    + now apply scanLine_not_candidate.
    + now apply scanLine_no_label.
Qed.

(** C1.  The claim gives [p1] for a description with no checked marker;
    the code gives [p2]: with no line that is both a candidate marker line
    and the holder of one of the three labels, none of the flags is set and
    [detectUrgency] falls to its last [return 'p2']. *)
Theorem detectUrgency_no_marker_gives_p2 (prBody checkboxP0 checkboxP1 checkboxP2 : string) :
  noMarkerChecked prBody checkboxP0 checkboxP1 checkboxP2 = true ->
  detectUrgency prBody checkboxP0 checkboxP1 checkboxP2 = p2
  /\ detectUrgency prBody checkboxP0 checkboxP1 checkboxP2 <> p1.
Proof.
  intros H. unfold noMarkerChecked in H.
  assert (E : detectUrgency prBody checkboxP0 checkboxP1 checkboxP2 = p2).
  { unfold detectUrgency. cbv zeta. now rewrite scan_unmarked. }
  rewrite E. split; [reflexivity | discriminate].
Qed.

(** The description of the repository's own test of the default,
    ['This is a PR with no urgency checkboxes'] with the labels P0, P1, P2:
    the test expects [p1], the code returns [p2]. *)
Lemma detectUrgency_no_marker_gives_p2_witness :
  noMarkerChecked "This is a PR with no urgency checkboxes" "P0" "P1" "P2" = true
  /\ detectUrgency "This is a PR with no urgency checkboxes" "P0" "P1" "P2" = p2
  /\ detectUrgency "This is a PR with no urgency checkboxes" "P0" "P1" "P2" <> p1.
Proof.
  split; [vm_compute; reflexivity |].
  apply (detectUrgency_no_marker_gives_p2
           "This is a PR with no urgency checkboxes" "P0" "P1" "P2").
  vm_compute; reflexivity.
Defined.




(** ** Fetching: the turns of the retry loop *)

Lemma wf_5xx_not_ok (r : response) : responseWf r -> 500 <= status r -> ok r = false.
Proof.
  unfold responseWf. intros -> H.
  apply andb_false_iff. right. apply Z.leb_gt. lia.
Qed.

Lemma wf_4xx_not_ok (r : response) : responseWf r -> 400 <= status r -> ok r = false.
Proof.
  unfold responseWf. intros -> H.
  apply andb_false_iff. right. apply Z.leb_gt. lia.
Qed.

(** A 5xx answer on one of the first two turns: a line of information,
    the delay of the turn, and the next turn. *)
Lemma attemptBody_5xx_retry apiKey urgency failOnApiError attempt (r : response) :
  ok r = false -> 500 <= status r -> (attempt < 2)%nat ->
  attemptBody apiKey urgency failOnApiError attempt (Resolves r) =
  ([Fetched (fetchRequest apiKey urgency);
    LogInfo ("CR Cab API returned " ++ decimal (status r) ++ ", retrying in "
               ++ delayText (delayAt attempt) ++ "ms " ++ attemptText attempt);
    Slept (delayMs (delayAt attempt))],
   Continue).
Proof.
  intros Hok H5 Ha. unfold attemptBody, tryBlock. rewrite Hok. cbn [negb].
  replace (500 <=? status r) with true by (symmetry; apply Z.leb_le; lia).
  replace (Nat.ltb attempt maxRetries) with true
    by (symmetry; apply Nat.ltb_lt; unfold maxRetries; lia).
  reflexivity.
Qed.

(** An error status that is not retried, in the lenient mode: a warning
    and [null]. *)
Lemma attemptBody_error_lenient apiKey urgency attempt (r : response) :
  ok r = false ->
  ((500 <=? status r) && Nat.ltb attempt maxRetries)%bool = false ->
  attemptBody apiKey urgency false attempt (Resolves r) =
  ([Fetched (fetchRequest apiKey urgency);
    LogWarning
      (if 500 <=? status r
       then "CR Cab API unavailable (status=" ++ decimal (status r)
              ++ "). Skipping comment and continuing."
       else "CR Cab API error (status=" ++ decimal (status r)
              ++ "). Skipping comment and continuing.")],
   Return None).
Proof.
  intros Hok Hn. unfold attemptBody, tryBlock. rewrite Hok, Hn. reflexivity.
Qed.

(** An error status that is not retried, in the strict mode: the [throw]
    of the [try] block lands in the [catch] block of the same turn. *)
Lemma attemptBody_error_strict apiKey urgency attempt (r : response) :
  ok r = false ->
  ((500 <=? status r) && Nat.ltb attempt maxRetries)%bool = false ->
  attemptBody apiKey urgency true attempt (Resolves r) =
  let thrown := Error ("CR Cab API error: " ++ decimal (status r) ++ " " ++ statusText r) in
  let (evs, c) := catchBlock true attempt thrown in
  (Fetched (fetchRequest apiKey urgency) :: evs, c).
Proof.
  intros Hok Hn. unfold attemptBody, tryBlock. rewrite Hok, Hn. reflexivity.
Qed.

(** On the last turn the [catch] block retries nothing. *)
Lemma catchBlock_last_turn failOnApiError (e : error) :
  catchBlock failOnApiError 2 e =
  if failOnApiError
  then ([], Raise (Error ("CR Cab API network error: " ++ message e)))
  else ([LogWarning "CR Cab API network error. Skipping comment and continuing."],
        Return None).
Proof. reflexivity. Qed.

(** C3.  Three answers with a status of 500 or more: three calls of
    [fetch], a wait of 250 ms after the first and of 750 ms after the
    second, and no fourth call; then, in the lenient mode, one warning and
    [null], and in the strict mode an error whose message names the status
    of the third answer (so [500] for a 500). *)
Theorem fetchReviewers_three_5xx
    (network : nat -> fetchOutcome) (apiKey urgency : string) (r0 r1 r2 : response)
    (failOnApiError : bool) :
  network 0%nat = Resolves r0 -> network 1%nat = Resolves r1 ->
  network 2%nat = Resolves r2 ->
  responseWf r0 -> responseWf r1 -> responseWf r2 ->
  500 <= status r0 -> 500 <= status r1 -> 500 <= status r2 ->
  let run := fetchReviewers network apiKey urgency failOnApiError in
  let unavailable :=
    "CR Cab API unavailable (status=" ++ decimal (status r2)
      ++ "). Skipping comment and continuing." in
  let raised :=
    "CR Cab API network error: CR Cab API error: "
      ++ decimal (status r2) ++ " " ++ statusText r2 in
  fst run =
    ([Fetched (fetchRequest apiKey urgency);
      LogInfo ("CR Cab API returned " ++ decimal (status r0)
                 ++ ", retrying in 250ms (attempt 1/2)");
      Slept 250;
      Fetched (fetchRequest apiKey urgency);
      LogInfo ("CR Cab API returned " ++ decimal (status r1)
                 ++ ", retrying in 750ms (attempt 2/2)");
      Slept 750;
      Fetched (fetchRequest apiKey urgency)]
     ++ (if failOnApiError then [] else [LogWarning unavailable]))%list
  /\ List.length (fetchCalls (fst run)) = 3%nat
  /\ delays (fst run) = [250; 750]
  /\ snd run = (if failOnApiError then Throw (Error raised) else Normal None)
  /\ warnings (fst run) = (if failOnApiError then [] else [unavailable])
  /\ includes (decimal (status r2)) raised = true.
Proof.
  intros N0 N1 N2 W0 W1 W2 S0 S1 S2 run unavailable raised.
  subst run unavailable raised.
  pose proof (wf_5xx_not_ok _ W0 S0) as K0.
  pose proof (wf_5xx_not_ok _ W1 S1) as K1.
  pose proof (wf_5xx_not_ok _ W2 S2) as K2.
  assert (I : includes (decimal (status r2))
                ("CR Cab API network error: CR Cab API error: "
                   ++ decimal (status r2) ++ " " ++ statusText r2) = true)
    by apply (includes_part _ "CR Cab API network error: CR Cab API error: ").
  unfold fetchReviewers. cbn [retryLoop maxRetries Nat.leb].
  rewrite N0, N1, N2.
  rewrite (attemptBody_5xx_retry _ _ _ 0 r0 K0 S0) by lia.
  rewrite (attemptBody_5xx_retry _ _ _ 1 r1 K1 S1) by lia.
  destruct failOnApiError.
  - rewrite (attemptBody_error_strict _ _ 2 r2 K2) by (now rewrite andb_false_r).
    cbv zeta. rewrite catchBlock_last_turn.
    repeat (split; [reflexivity |]). exact I.
  - rewrite (attemptBody_error_lenient _ _ 2 r2 K2) by (now rewrite andb_false_r).
    replace (500 <=? status r2) with true by (symmetry; apply Z.leb_le; lia).
    repeat (split; [reflexivity |]). exact I.
Qed.

(** The run of the repository's test of three 500 answers, in both modes. *)
Lemma fetchReviewers_three_5xx_witness :
  List.length
    (fetchCalls (fst (fetchReviewers (always (Resolves internalServerError))
                        "test-api-key" "p2" false))) = 3%nat
  /\ snd (fetchReviewers (always (Resolves internalServerError))
            "test-api-key" "p2" false) = Normal None
  /\ snd (fetchReviewers (always (Resolves internalServerError))
            "test-api-key" "p2" true) =
     Throw (Error "CR Cab API network error: CR Cab API error: 500 Internal Server Error")
  /\ includes "500"
       "CR Cab API network error: CR Cab API error: 500 Internal Server Error" = true.
Proof.
  assert (W : responseWf internalServerError) by reflexivity.
  assert (S : 500 <= status internalServerError) by (simpl; lia).
  pose proof (fetchReviewers_three_5xx (always (Resolves internalServerError))
                "test-api-key" "p2" _ _ _ false
                eq_refl eq_refl eq_refl W W W S S S) as (_ & C & _ & L & _).
  pose proof (fetchReviewers_three_5xx (always (Resolves internalServerError))
                "test-api-key" "p2" _ _ _ true
                eq_refl eq_refl eq_refl W W W S S S) as (_ & _ & _ & T & _ & I).
  repeat split; assumption.
Defined.

(** The message of the error thrown for an error status holds [fetch]
    exactly when the status text does. *)
Lemma api_error_message_fetch (st : Z) (text : string) :
  includes "fetch" ("CR Cab API error: " ++ decimal st ++ " " ++ text)
  = includes "fetch" text.
Proof.
  assert (A : allChars (fun x => negb (Ascii.eqb x " ")) "fetch" = true) by reflexivity.
  assert (N : "fetch" <> "") by discriminate.
  change ("CR Cab API error: " ++ decimal st ++ " " ++ text)
    with ("CR Cab API error:" ++ String " " (decimal st ++ String " " text)).
  rewrite (includes_split_at " " _ _ _ N A).
  rewrite (includes_split_at " " _ _ _ N A).
  replace (includes "fetch" (decimal st)) with false; [reflexivity |].
  symmetry. apply not_true_is_false. intros I.
  pose proof (includes_allChars isDecimalChar _ _ I (decimal_chars st)) as C.
  discriminate C.
Qed.

(** What the claim C4 says does hold for a 4xx answer whose status text
    lacks the letters [fetch]: one call of [fetch], no delay; an error
    with the status and its text in the strict mode, a warning of its own
    wording and [null] in the lenient mode. *)
Lemma fetchReviewers_4xx_single_attempt
    (network : nat -> fetchOutcome) (apiKey urgency : string) (r : response) :
  network 0%nat = Resolves r -> responseWf r ->
  400 <= status r < 500 ->
  includes "fetch" (statusText r) = false ->
  fetchReviewers network apiKey urgency true =
    ([Fetched (fetchRequest apiKey urgency)],
     Throw (Error ("CR Cab API network error: CR Cab API error: "
                     ++ decimal (status r) ++ " " ++ statusText r)))
  /\ fetchReviewers network apiKey urgency false =
    ([Fetched (fetchRequest apiKey urgency);
      LogWarning ("CR Cab API error (status=" ++ decimal (status r)
                    ++ "). Skipping comment and continuing.")],
     Normal None)
  /\ (forall st,
        "CR Cab API error (status=" ++ decimal (status r)
          ++ "). Skipping comment and continuing."
        <> "CR Cab API unavailable (status=" ++ decimal st
             ++ "). Skipping comment and continuing.").
Proof.
  intros N W [Hlo Hhi] F.
  split; [| split; [| discriminate]].
  - pose proof (wf_4xx_not_ok _ W Hlo) as K.
    assert (H5 : (500 <=? status r) = false) by (apply Z.leb_gt; lia).
    unfold fetchReviewers. cbn [retryLoop maxRetries Nat.leb]. rewrite N.
    rewrite (attemptBody_error_strict _ _ 0 r K) by (now rewrite H5).
    cbv zeta. unfold catchBlock. cbn [name message Error].
    rewrite api_error_message_fetch, F. reflexivity.
  - pose proof (wf_4xx_not_ok _ W Hlo) as K.
    assert (H5 : (500 <=? status r) = false) by (apply Z.leb_gt; lia).
    unfold fetchReviewers. cbn [retryLoop maxRetries Nat.leb]. rewrite N.
    rewrite (attemptBody_error_lenient _ _ 0 r K) by (now rewrite H5).
    rewrite H5. reflexivity.
Qed.

(** C4.  The claim holds but for one case, where the code goes wrong: in
    the strict mode the error thrown for the 4xx answer is caught by the
    [catch] block of the same turn, which retries every error whose message
    holds [fetch]; the message holds the status text of the answer.  A 404
    with the status text [Prefetch target not found] is fetched three
    times, with both delays, where a 404 with the text [Not Found] is
    fetched once. *)
Theorem fetchReviewers_4xx_retried_on_fetch_text :
  let run :=
    fetchReviewers (always (Resolves prefetchNotFound)) "test-api-key" "p2" true in
  400 <= status prefetchNotFound < 500
  /\ includes "fetch" (statusText prefetchNotFound) = true
  /\ List.length (fetchCalls (fst run)) = 3%nat
  /\ delays (fst run) = [250; 750]
  /\ diagnostics (fst run) =
     ["Network error, retrying in 250ms (attempt 1/2)";
      "Network error, retrying in 750ms (attempt 2/2)"]
  /\ snd run =
     Throw (Error ("CR Cab API network error: "
                     ++ "CR Cab API error: 404 Prefetch target not found"))
  /\ List.length
       (fetchCalls (fst (fetchReviewers (always (Resolves notFound))
                           "test-api-key" "p2" true))) = 1%nat.
Proof. vm_compute. repeat split; discriminate. Qed.

(** ** Fetching: malformed answers *)










(** ** Fetching: the diagnostics and the API key *)

Lemma diagnostics_app (evs evs' : list event) :
  diagnostics (evs ++ evs') = (diagnostics evs ++ diagnostics evs')%list.
Proof. apply flat_map_app. Qed.

Lemma allChars_weaken (p q : ascii -> bool) (s : string) :
  (forall c, p c = true -> q c = true) -> allChars p s = true -> allChars q s = true.
Proof.
  intros W. induction s as [|c s IH]; simpl; [reflexivity |].
  intros H. apply andb_true_iff in H as [C A]. now rewrite (W c C), IH.
Qed.

Lemma decimal_diagnostic (z : Z) : allChars isDiagnosticChar (decimal z) = true.
Proof.
  apply (allChars_weaken isDecimalChar); [| apply decimal_chars].
  intros c H. unfold isDiagnosticChar. now rewrite H.
Qed.

Lemma delayText_diagnostic (d : option Z) : allChars isDiagnosticChar (delayText d) = true.
Proof. destruct d; [apply decimal_diagnostic | reflexivity]. Qed.

Lemma attemptText_diagnostic (attempt : nat) :
  allChars isDiagnosticChar (attemptText attempt) = true.
Proof.
  unfold attemptText. rewrite !allChars_append, !decimal_diagnostic. reflexivity.
Qed.

(** A message built from fixed texts and decimal numbers is well worded. *)
Ltac worded :=
  rewrite ?allChars_append, ?decimal_diagnostic, ?delayText_diagnostic,
    ?attemptText_diagnostic;
  reflexivity.

(** The condition under which the [catch] block retries. *)
Ltac case_retry :=
  match goal with
  | |- context [(Nat.ltb ?a maxRetries && ?c)%bool] =>
      destruct (Nat.ltb a maxRetries && c)%bool
  end.

Section OneTurn.

Variables (urgency : string) (failOnApiError : bool) (attempt : nat).

(** The messages of the [try] block are fixed texts and decimal numbers. *)
Lemma tryBlock_wellWorded (outcome : fetchOutcome) :
  wellWorded (fst (tryBlock failOnApiError attempt outcome)).
Proof.
  unfold wellWorded, tryBlock.
  destruct outcome as [resp | e]; [| constructor].
  destruct (negb (ok resp)).
  - destruct ((500 <=? status resp) && Nat.ltb attempt maxRetries)%bool.
    + repeat constructor. cbn [fst]. worded.
    + destruct failOnApiError; [constructor |].
      repeat constructor. destruct (500 <=? status resp); worded.
  - destruct (parseReviewers resp); constructor.
Qed.

(** So are the messages of the [catch] block: the error caught gives none
    of its text to them. *)
Lemma catchBlock_wellWorded (e : error) :
  wellWorded (fst (catchBlock failOnApiError attempt e)).
Proof.
  unfold wellWorded, catchBlock. case_retry.
  - repeat constructor. cbn [fst]. worded.
  - destruct failOnApiError; repeat constructor.
Qed.

Lemma attemptBody_wellWorded (apiKey : string) (outcome : fetchOutcome) :
  wellWorded (fst (attemptBody apiKey urgency failOnApiError attempt outcome)).
Proof.
  unfold attemptBody.
  pose proof (tryBlock_wellWorded outcome) as T.
  destruct (tryBlock failOnApiError attempt outcome) as [evs c]. cbn [fst] in T.
  destruct c as [| v | e]; cbn [fst]; try exact T.
  pose proof (catchBlock_wellWorded e) as C.
  destruct (catchBlock failOnApiError attempt e) as [evs' c']. cbn [fst] in *.
  unfold wellWorded in *.
  change (Fetched (fetchRequest apiKey urgency) :: (evs ++ evs')%list)
    with (([Fetched (fetchRequest apiKey urgency)] ++ (evs ++ evs'))%list).
  rewrite !diagnostics_app. cbn [diagnostics flat_map app].
  now apply Forall_app.
Qed.

(** The API key reaches the request of a turn and nothing else of it. *)
Lemma attemptBody_key_independent (apiKey otherKey : string) (outcome : fetchOutcome) :
  diagnostics (fst (attemptBody apiKey urgency failOnApiError attempt outcome))
  = diagnostics (fst (attemptBody otherKey urgency failOnApiError attempt outcome))
  /\ snd (attemptBody apiKey urgency failOnApiError attempt outcome)
     = snd (attemptBody otherKey urgency failOnApiError attempt outcome).
Proof.
  unfold attemptBody.
  destruct (tryBlock failOnApiError attempt outcome) as [evs c].
  destruct c as [| v | e]; [now split | now split |].
  now destruct (catchBlock failOnApiError attempt e).
Qed.

(** The [try] and [catch] blocks call [fetch] no more: a turn makes one
    request, the one that carries the key. *)
Lemma attemptBody_fetches_once (apiKey : string) (outcome : fetchOutcome) :
  fetchCalls (fst (attemptBody apiKey urgency failOnApiError attempt outcome))
  = [fetchRequest apiKey urgency].
Proof.
  unfold attemptBody, tryBlock, catchBlock.
  destruct outcome as [resp | e].
  - destruct (negb (ok resp)).
    + destruct ((500 <=? status resp) && Nat.ltb attempt maxRetries)%bool;
        [reflexivity |].
      destruct failOnApiError; [| reflexivity].
      case_retry; reflexivity.
    + destruct (parseReviewers resp) as [rs | e]; [reflexivity |].
      case_retry; [reflexivity |]. destruct failOnApiError; reflexivity.
  - case_retry; [reflexivity |]. destruct failOnApiError; reflexivity.
Qed.

End OneTurn.

Section WholeLoop.

Variables (network : nat -> fetchOutcome) (urgency : string) (failOnApiError : bool).

Lemma retryLoop_wellWorded (apiKey : string) (turns attempt : nat) :
  wellWorded (fst (retryLoop network apiKey urgency failOnApiError turns attempt)).
Proof.
  assert (A : wellWorded (fst (afterLoop failOnApiError)))
    by (destruct failOnApiError; repeat constructor).
  revert attempt. induction turns as [|turns IH]; intros attempt; cbn [retryLoop].
  - exact A.
  - destruct (Nat.leb attempt maxRetries); [| exact A].
    pose proof (attemptBody_wellWorded urgency failOnApiError attempt apiKey
                  (network attempt)) as B.
    destruct (attemptBody apiKey urgency failOnApiError attempt (network attempt))
      as [evs c].
    destruct c as [| v | e]; cbn [fst] in *; try exact B.
    specialize (IH (S attempt)).
    destruct (retryLoop network apiKey urgency failOnApiError turns (S attempt))
      as [evs' r].
    cbn [fst] in *. unfold wellWorded in *. rewrite diagnostics_app.
    now apply Forall_app.
Qed.

Lemma retryLoop_key_independent (apiKey otherKey : string) (turns attempt : nat) :
  diagnostics (fst (retryLoop network apiKey urgency failOnApiError turns attempt))
  = diagnostics (fst (retryLoop network otherKey urgency failOnApiError turns attempt))
  /\ snd (retryLoop network apiKey urgency failOnApiError turns attempt)
     = snd (retryLoop network otherKey urgency failOnApiError turns attempt).
Proof.
  revert attempt. induction turns as [|turns IH]; intros attempt; cbn [retryLoop].
  - now split.
  - destruct (Nat.leb attempt maxRetries); [| now split].
    destruct (attemptBody_key_independent urgency failOnApiError attempt
                apiKey otherKey (network attempt)) as [D C].
    destruct (attemptBody apiKey urgency failOnApiError attempt (network attempt))
      as [evs1 c1].
    destruct (attemptBody otherKey urgency failOnApiError attempt (network attempt))
      as [evs2 c2].
    cbn [fst snd] in D, C. subst c2.
    destruct c1 as [| v | e]; cbn [fst snd]; [| now split | now split].
    destruct (IH (S attempt)) as [D' R'].
    destruct (retryLoop network apiKey urgency failOnApiError turns (S attempt)).
    destruct (retryLoop network otherKey urgency failOnApiError turns (S attempt)).
    cbn [fst snd] in *. rewrite !diagnostics_app. now rewrite D, D', R'.
Qed.

Lemma retryLoop_requests (apiKey : string) (turns attempt : nat) :
  Forall (fun req => req = fetchRequest apiKey urgency)
    (fetchCalls (fst (retryLoop network apiKey urgency failOnApiError turns attempt))).
Proof.
  assert (A : fetchCalls (fst (afterLoop failOnApiError)) = [])
    by (now destruct failOnApiError).
  revert attempt. induction turns as [|turns IH]; intros attempt; cbn [retryLoop].
  - rewrite A. constructor.
  - destruct (Nat.leb attempt maxRetries); [| rewrite A; constructor].
    pose proof (attemptBody_fetches_once urgency failOnApiError attempt apiKey
                  (network attempt)) as B.
    destruct (attemptBody apiKey urgency failOnApiError attempt (network attempt))
      as [evs c].
    cbn [fst] in B.
    destruct c as [| v | e]; cbn [fst]; try (rewrite B; now repeat constructor).
    specialize (IH (S attempt)).
    destruct (retryLoop network apiKey urgency failOnApiError turns (S attempt))
      as [evs' r].
    cbn [fst] in *. unfold fetchCalls in *. rewrite flat_map_app, B.
    now repeat constructor.
Qed.

End WholeLoop.

(** C6.  The diagnostics of [fetchReviewers] tell nothing of the API key:
    two runs that differ in the key alone log the same messages, in the
    same order, and complete alike; the key goes into the requests.  Every
    message is made of fixed texts and decimal numbers: none holds the word
    [Bearer], and a message can hold the text of a key only when every code
    unit of the key occurs in those texts and numbers. *)
Theorem fetchReviewers_diagnostics_hide_key
    (network : nat -> fetchOutcome) (urgency : string) (failOnApiError : bool)
    (apiKey otherKey : string) :
  diagnostics (fst (fetchReviewers network apiKey urgency failOnApiError))
  = diagnostics (fst (fetchReviewers network otherKey urgency failOnApiError))
  /\ snd (fetchReviewers network apiKey urgency failOnApiError)
     = snd (fetchReviewers network otherKey urgency failOnApiError)
  /\ Forall (fun req => req = fetchRequest apiKey urgency)
       (fetchCalls (fst (fetchReviewers network apiKey urgency failOnApiError)))
  /\ (forall msg,
        In msg (diagnostics (fst (fetchReviewers network apiKey urgency failOnApiError))) ->
        includes "Bearer" msg = false
        /\ (allChars isDiagnosticChar apiKey = false -> includes apiKey msg = false)).
Proof.
  unfold fetchReviewers.
  destruct (retryLoop_key_independent network urgency failOnApiError apiKey otherKey
              (S maxRetries) 0) as [D R].
  split; [exact D | split; [exact R | split; [apply retryLoop_requests |]]].
  intros msg I.
  pose proof (retryLoop_wellWorded network urgency failOnApiError apiKey
                (S maxRetries) 0) as W.
  unfold wellWorded in W. rewrite Forall_forall in W. specialize (W msg I).
  split.
  - apply not_true_is_false. intros B.
    pose proof (includes_allChars isDiagnosticChar _ _ B W) as C. discriminate C.
  - intros K. apply not_true_is_false. intros B.
    pose proof (includes_allChars isDiagnosticChar _ _ B W) as C. congruence.
Qed.

(** Runs against three 500 answers with two keys, one of them holding an
    underscore, which no diagnostic holds. *)
Lemma fetchReviewers_diagnostics_hide_key_witness :
  diagnostics (fst (fetchReviewers (always (Resolves internalServerError))
                      "sk_live_51Hx" "p2" false))
  = diagnostics (fst (fetchReviewers (always (Resolves internalServerError))
                        "test-api-key" "p2" false))
  /\ includes "Bearer"
       "CR Cab API unavailable (status=500). Skipping comment and continuing." = false
  /\ includes "sk_live_51Hx"
       "CR Cab API unavailable (status=500). Skipping comment and continuing." = false.
Proof.
  destruct (fetchReviewers_diagnostics_hide_key
              (always (Resolves internalServerError)) "p2" false
              "sk_live_51Hx" "test-api-key") as (D & _ & _ & M).
  split; [exact D |].
  destruct (M "CR Cab API unavailable (status=500). Skipping comment and continuing.")
    as [B K].
  - vm_compute. auto.
  - split; [exact B | apply K; reflexivity].
Defined.

(** ** Selection *)

(** [ToInt32] reads its argument modulo 2^32. *)
Lemma ToInt32_add_l (x y : Z) : ToInt32 (ToInt32 x + y) = ToInt32 (x + y).
Proof.
  unfold ToInt32. f_equal.
  replace ((x + 2 ^ 31) mod 2 ^ 32 - 2 ^ 31 + y + 2 ^ 31)
    with ((x + 2 ^ 31) mod 2 ^ 32 + y) by lia.
  rewrite Zplus_mod_idemp_l. f_equal. lia.
Qed.

Lemma ToInt32_idem (z : Z) : ToInt32 (ToInt32 z) = ToInt32 z.
Proof.
  replace (ToInt32 z) with (ToInt32 z + 0) at 1 by lia.
  rewrite ToInt32_add_l. f_equal. lia.
Qed.

Lemma ToInt32_mul_l (x k : Z) : ToInt32 (ToInt32 x * k) = ToInt32 (x * k).
Proof.
  unfold ToInt32. f_equal.
  rewrite <- (Zplus_mod_idemp_l (((x + 2 ^ 31) mod 2 ^ 32 - 2 ^ 31) * k)).
  rewrite <- (Zplus_mod_idemp_l (x * k)). f_equal. f_equal.
  rewrite <- (Zmult_mod_idemp_l ((x + 2 ^ 31) mod 2 ^ 32 - 2 ^ 31)).
  rewrite <- (Zmult_mod_idemp_l x). f_equal. f_equal.
  rewrite <- Zminus_mod_idemp_l, Z.mod_mod by lia.
  rewrite Zminus_mod_idemp_l. f_equal. lia.
Qed.

(** The two readings of 32-bit wrap-around agree. *)
Lemma ToInt32_wrapSigned32 (z : Z) : ToInt32 z = SelectorSpec.wrapSigned32 z.
Proof.
  unfold ToInt32, SelectorSpec.wrapSigned32. cbv zeta.
  pose proof (Z.mod_pos_bound z (2 ^ 32) ltac:(lia)) as B.
  pose proof (Z.div_mod z (2 ^ 32) ltac:(lia)) as D.
  destruct (z mod 2 ^ 32 <? 2 ^ 31) eqn:C.
  - apply Z.ltb_lt in C.
    replace (z + 2 ^ 31) with (z mod 2 ^ 32 + 2 ^ 31 + (z / 2 ^ 32) * 2 ^ 32) by lia.
    rewrite Z_mod_plus_full, Z.mod_small by lia. lia.
  - apply Z.ltb_ge in C.
    replace (z + 2 ^ 31)
      with (z mod 2 ^ 32 - 2 ^ 31 + (z / 2 ^ 32 + 1) * 2 ^ 32) by lia.
    rewrite Z_mod_plus_full, Z.mod_small by lia. lia.
Qed.

(** One turn of the loop of the source is [hash * 31 + charCode] wrapped
    to 32 bits, whatever integer the hash was. *)
Lemma hashStep_spec (hash : Z) (c : ascii) :
  hashStep hash c = SelectorSpec.wrapSigned32 (hash * 31 + charCode c).
Proof.
  unfold hashStep, band, shl. cbv zeta.
  rewrite Z.land_diag, ToInt32_idem.
  change (5 mod 32) with 5. rewrite Z.shiftl_mul_pow2 by lia.
  rewrite ToInt32_mul_l.
  replace (ToInt32 (hash * 2 ^ 5) - hash + charCode c)
    with (ToInt32 (hash * 2 ^ 5) + (charCode c - hash)) by lia.
  rewrite ToInt32_add_l, <- ToInt32_wrapSigned32. f_equal. lia.
Qed.

Lemma hashLoop_spec (text : string) :
  forall hash, hashLoop text hash = SelectorSpec.hashOf text hash.
Proof.
  induction text as [|c text IH]; intros hash; simpl; [reflexivity |].
  now rewrite hashStep_spec, IH.
Qed.

(** ** Selection: numbers and their texts *)

(** A safe integer is a double: nothing is rounded. *)
Lemma roundToDouble_safe (m : Z) :
  0 <= m <= MAX_SAFE_INTEGER -> roundToDouble m = m.
Proof.
  intros B. unfold roundToDouble. cbv zeta.
  destruct (Z.leb_spec (Z.log2 m + 1) 53) as [_ | L]; [reflexivity |].
  exfalso. unfold MAX_SAFE_INTEGER in B.
  assert (P : 0 < m) by (destruct (Z.eq_dec m 0) as [-> |]; [simpl in L |]; lia).
  pose proof (Z.log2_spec m P) as [Lo _].
  assert (M : 2 ^ 53 <= 2 ^ Z.log2 m) by (apply Z.pow_le_mono_r; lia).
  change (2 ^ 53) with 9007199254740992 in M. lia.
Qed.

Lemma toNumber_safe (n : Z) : isSafeInteger n = true -> toNumber n = Int n.
Proof.
  unfold isSafeInteger, toNumber. intros S. apply Z.leb_le in S. cbv zeta.
  rewrite roundToDouble_safe by (pose proof (Z.abs_nonneg n); lia).
  destruct (Z.leb_spec (2 ^ 1024) (Z.abs n)) as [L | _].
  - exfalso. assert (M : MAX_SAFE_INTEGER < 2 ^ 1024) by reflexivity. lia.
  - f_equal. lia.
Qed.

(** ** Selection: the integer a seed is parsed as *)

Lemma skipSpace_trimStart (s : string) : SelectorSpec.skipSpace s = trimStart s.
Proof.
  induction s as [|c s IH]; [reflexivity |]. simpl. now rewrite IH.
Qed.

Lemma digitOf_spec (c : ascii) :
  SelectorSpec.digitOf c = if isDigit c then Some (digitValue c) else None.
Proof. destruct c as [[] [] [] [] [] [] [] []]; reflexivity. Qed.

Lemma digitsPrefix_leading (s : string) :
  forall acc,
    digitsPrefix s acc
    = fold_left (fun value d => 10 * value + d) (SelectorSpec.leadingDigits s) acc.
Proof.
  induction s as [|c s IH]; intros acc; [reflexivity |].
  cbn [digitsPrefix SelectorSpec.leadingDigits]. rewrite digitOf_spec.
  destruct (isDigit c); [| reflexivity]. cbn [fold_left]. apply IH.
Qed.

Lemma startsWithDigit_leading (s : string) :
  startsWithDigit s
  = match SelectorSpec.leadingDigits s with [] => false | _ => true end.
Proof.
  destruct s as [|c s]; [reflexivity |].
  cbn [startsWithDigit SelectorSpec.leadingDigits]. rewrite digitOf_spec.
  now destruct (isDigit c).
Qed.

(** After the sign the code and the specification read the same integer. *)
Lemma digits_read_alike (body : string) (negative : bool) (n : Z) :
  match SelectorSpec.leadingDigits body with
  | [] => None
  | digits =>
      Some (if negative then - SelectorSpec.valueOf digits
            else SelectorSpec.valueOf digits)
  end = Some n ->
  (if startsWithDigit body
   then toNumber (if negative then - digitsPrefix body 0 else digitsPrefix body 0)
   else NaN) = toNumber n.
Proof.
  rewrite startsWithDigit_leading, digitsPrefix_leading.
  unfold SelectorSpec.valueOf.
  destruct (SelectorSpec.leadingDigits body); [discriminate |].
  now intros [= <-].
Qed.

(** [parseInt(seed, 10)] is the Number value for the integer the seed is
    parsed as. *)
Lemma parseInt10_integerOf (seed : string) (n : Z) :
  SelectorSpec.integerOf seed = Some n -> parseInt10 seed = toNumber n.
Proof.
  unfold SelectorSpec.integerOf, parseInt10. rewrite skipSpace_trimStart.
  destruct (trimStart seed) as [|c rest].
  - intros H. exact (digits_read_alike "" false n H).
  - destruct c as [[] [] [] [] [] [] [] []]; cbv beta iota zeta; intros H;
      match goal with
      | |- context [startsWithDigit ?body] =>
          first [ exact (digits_read_alike body true n H)
                | exact (digits_read_alike body false n H) ]
      end.
Qed.

(** ** Selection: the decimal text of an integer *)

Lemma append_empty (s : string) : s ++ "" = s.
Proof. induction s as [|c s IH]; simpl; [reflexivity | now rewrite IH]. Qed.

Lemma digit_cases (n : Z) : In (n mod 10) [0; 1; 2; 3; 4; 5; 6; 7; 8; 9].
Proof. pose proof (Z.mod_pos_bound n 10 ltac:(lia)). cbn [In]. lia. Qed.

(** Tries the ten digits that [n mod 10] can be. *)
Ltac each_digit n :=
  pose proof (digit_cases n) as D; cbn [In] in D;
  repeat destruct D as [D | D]; [.. | contradiction]; rewrite <- D.

(** Tries the ten digits that [n < 10] can be. *)
Ltac small_digit n :=
  pose proof (digit_cases n) as D; rewrite Z.mod_small in D by lia;
  cbn [In] in D; repeat destruct D as [D | D]; [.. | contradiction]; subst n.

(** The two lists of digits are the same digits. *)
Lemma leastFirst_text (fuel : nat) :
  forall (n : Z) (acc : Decimal.uint),
    NilEmpty.string_of_uint (Decimal.revapp (leastFirst fuel n) acc)
    = string_of_list_ascii (rev (SelectorSpec.digitsFromLeast fuel n))
      ++ NilEmpty.string_of_uint acc.
Proof.
  assert (A : forall (l : list ascii) (c : ascii) (t : string),
            string_of_list_ascii (l ++ [c]) ++ t
            = string_of_list_ascii l ++ String c t).
  { induction l as [|a l IH]; intros c t; [reflexivity |].
    cbn [app string_of_list_ascii append]. now rewrite IH. }
  induction fuel as [|fuel IH]; intros n acc; [reflexivity |].
  cbn [leastFirst SelectorSpec.digitsFromLeast rev]. rewrite A.
  destruct (n <? 10).
  - each_digit n; reflexivity.
  - each_digit n; cbn [digitLeast Decimal.revapp]; rewrite IH; reflexivity.
Qed.

(** The digits write the number. *)
Lemma leastFirst_value (fuel : nat) :
  forall n : Z,
    0 <= n < 2 ^ Z.of_nat fuel ->
    Unsigned.of_lu (leastFirst fuel n) = Z.to_N n.
Proof.
  induction fuel as [|fuel IH]; intros n B.
  - cbn in B. assert (n = 0) as -> by lia. reflexivity.
  - cbn [leastFirst].
    assert (Q : 0 <= n / 10 < 2 ^ Z.of_nat fuel).
    { rewrite Nat2Z.inj_succ, Z.pow_succ_r in B by lia.
      split; [apply Z.div_pos; lia |].
      apply Z.div_lt_upper_bound; lia. }
    pose proof (Z.div_mod n 10 ltac:(lia)) as E.
    destruct (Z.ltb_spec n 10) as [S | S].
    + rewrite Z.mod_small by lia. clear E Q. small_digit n; reflexivity.
    + specialize (IH (n / 10) Q).
      each_digit n; cbn [digitLeast Unsigned.of_lu]; rewrite IH; rewrite <- D in E; lia.
Qed.

(** The most significant digit is no zero. *)
Lemma leastFirst_norm (fuel : nat) :
  forall (n : Z) (acc : Decimal.uint),
    0 < n < 2 ^ Z.of_nat fuel ->
    Decimal.unorm (Decimal.revapp (leastFirst fuel n) acc)
    = Decimal.revapp (leastFirst fuel n) acc.
Proof.
  induction fuel as [|fuel IH]; intros n acc B.
  - cbn in B. lia.
  - cbn [leastFirst].
    destruct (Z.ltb_spec n 10) as [S | S].
    + rewrite Z.mod_small by lia. small_digit n; first [reflexivity | lia].
    + assert (Q : 0 < n / 10 < 2 ^ Z.of_nat fuel).
      { rewrite Nat2Z.inj_succ, Z.pow_succ_r in B by lia.
        split; [apply Z.div_str_pos; lia |].
        apply Z.div_lt_upper_bound; lia. }
      each_digit n; cbn [digitLeast Decimal.revapp]; apply IH; exact Q.
Qed.

(** The digits found by division are the digits of the standard library. *)
Lemma to_uint_leastFirst (p : positive) :
  Pos.to_uint p
  = Decimal.rev (leastFirst (S (Z.to_nat (Z.log2 (Z.pos p)))) (Z.pos p)).
Proof.
  set (fuel := S (Z.to_nat (Z.log2 (Z.pos p)))).
  assert (B : 0 < Z.pos p < 2 ^ Z.of_nat fuel).
  { split; [lia |]. unfold fuel.
    rewrite Nat2Z.inj_succ, Z2Nat.id by apply Z.log2_nonneg.
    apply Z.log2_spec. lia. }
  pose proof (Unsigned.to_of (Decimal.rev (leastFirst fuel (Z.pos p)))) as T.
  rewrite Unsigned.of_lu_rev in T.
  rewrite leastFirst_value in T by lia.
  unfold Decimal.rev in T. rewrite leastFirst_norm in T by exact B.
  exact T.
Qed.

(** The decimal text of the specification is the text [String] writes for
    an integer that is written out in full. *)
Lemma decimal_decimalText (n : Z) : decimal n = SelectorSpec.decimalText n.
Proof.
  unfold decimal, SelectorSpec.decimalText. cbv zeta.
  destruct n as [| p | p]; [reflexivity | |];
    cbn [Z.abs Z.ltb Z.compare Z.to_int NilEmpty.string_of_int];
    rewrite to_uint_leastFirst; unfold Decimal.rev;
    rewrite leastFirst_text; cbn [NilEmpty.string_of_uint];
    now rewrite append_empty.
Qed.

(** The index of the source lies inside the list. *)
Lemma index_in_range (hash : Z) (n : nat) :
  (0 < n)%nat ->
  Z.rem (Z.abs hash) (Z.of_nat n) = Z.abs hash mod Z.of_nat n
  /\ (Z.to_nat (Z.abs hash mod Z.of_nat n) < n)%nat.
Proof.
  intros H. split.
  - apply Z.rem_mod_nonneg; lia.
  - pose proof (Z.mod_pos_bound (Z.abs hash) (Z.of_nat n) ltac:(lia)). lia.
Qed.

(** Past the two short lists the function returns the entry at the hashed
    index. *)
Lemma selectRandomReviewer_hashed (reviewers : list string) (seed : string) (prNumber : Z) :
  (2 <= List.length reviewers)%nat ->
  selectRandomReviewer reviewers seed prNumber =
  Normal (nth_error reviewers
            (Z.to_nat (Z.abs (hashLoop (String_of (randomSeed seed prNumber)) 0)
                         mod Z.of_nat (List.length reviewers)))).
Proof.
  intros H. unfold selectRandomReviewer.
  destruct (Nat.eqb_spec (List.length reviewers) 0); [lia |].
  destruct (Nat.eqb_spec (List.length reviewers) 1); [lia |].
  cbv zeta. now rewrite (proj1 (index_in_range _ (List.length reviewers) ltac:(lia))).
Qed.

(** C7, as the claim words it, fails: the integer a seed is parsed as and
    its decimal text are not what the code hashes once the integer is no
    safe one.  The seed [9007199254740993], 2^53 + 1, is read by
    [parseInt] as the double 2^53 and hashed as [9007199254740992]; the
    seed [1000000000000000000000], 10^21, is hashed as [1e+21].  In both
    cases the entry returned is not the one at the index of the claim. *)
Lemma selectRandomReviewer_index_beyond_safe_integers :
  (SelectorSpec.effectiveSeed "9007199254740993" 1 = Some 9007199254740993
   /\ String_of (randomSeed "9007199254740993" 1) = "9007199254740992"
   /\ nth_error fiveReviewers (SelectorSpec.indexOf 9007199254740993 5) = Some "r2"
   /\ selectRandomReviewer fiveReviewers "9007199254740993" 1 = Normal (Some "r1"))
  /\ (SelectorSpec.effectiveSeed "1000000000000000000000" 1
      = Some 1000000000000000000000
      /\ String_of (randomSeed "1000000000000000000000" 1) = "1e+21"
      /\ nth_error fiveReviewers (SelectorSpec.indexOf 1000000000000000000000 5)
         = Some "r2"
      /\ selectRandomReviewer fiveReviewers "1000000000000000000000" 1
         = Normal (Some "r3")).
Proof. vm_compute. repeat split. Qed.

(** C7, amended.  For a list of two candidates or more and an effective
    seed that is a safe integer, [selectRandomReviewer] returns the entry
    at the index the specification describes: the effective seed is the
    integer the explicit seed is parsed as when one is supplied, else the
    pull-request number; the text hashed is the decimal text of that
    integer; the hash runs over the characters of the text with
    [hash * 31 + charCode] wrapped to 32 signed bits; the index is
    [abs(hash) mod listLength], which lies inside the list. *)
Theorem selectRandomReviewer_index
    (reviewers : list string) (seed : string) (prNumber effective : Z) :
  (2 <= List.length reviewers)%nat ->
  SelectorSpec.effectiveSeed seed prNumber = Some effective ->
  isSafeInteger effective = true ->
  randomSeed seed prNumber = Int effective
  /\ String_of (randomSeed seed prNumber) = SelectorSpec.decimalText effective
  /\ hashLoop (String_of (randomSeed seed prNumber)) 0
     = SelectorSpec.hashOf (SelectorSpec.decimalText effective) 0
  /\ (SelectorSpec.indexOf effective (List.length reviewers)
      < List.length reviewers)%nat
  /\ selectRandomReviewer reviewers seed prNumber =
     Normal (nth_error reviewers
               (SelectorSpec.indexOf effective (List.length reviewers))).
Proof.
  intros H E S.
  assert (R : randomSeed seed prNumber = Int effective).
  { unfold randomSeed. destruct seed as [|c seed].
    - cbn in E. injection E as ->. reflexivity.
    - cbn [String.eqb negb]. cbn [SelectorSpec.effectiveSeed] in E.
      rewrite (parseInt10_integerOf _ _ E). now apply toNumber_safe. }
  assert (T : String_of (randomSeed seed prNumber)
              = SelectorSpec.decimalText effective).
  { rewrite R. unfold String_of. rewrite S. apply decimal_decimalText. }
  split; [exact R |]. split; [exact T |].
  split; [now rewrite hashLoop_spec, T |]. split.
  - unfold SelectorSpec.indexOf. apply index_in_range. lia.
  - rewrite (selectRandomReviewer_hashed _ _ _ H), hashLoop_spec, T. reflexivity.
Qed.

(** The list of the specification's example with the pull-request number
    42 and no seed, and with the seed [ +42abc] on the pull request 7: the
    text hashed is [42], the hash 1662, the index 0. *)
Lemma selectRandomReviewer_index_witness :
  SelectorSpec.hashOf (SelectorSpec.decimalText 42) 0 = 1662
  /\ selectRandomReviewer ["a"; "b"; "c"] "" 42 = Normal (Some "a")
  /\ selectRandomReviewer ["a"; "b"; "c"] " +42abc" 7 = Normal (Some "a").
Proof.
  split; [reflexivity |]. split.
  - destruct (selectRandomReviewer_index ["a"; "b"; "c"] "" 42 42)
      as (_ & _ & _ & _ & S); [simpl; lia | reflexivity | reflexivity |].
    exact S.
  - destruct (selectRandomReviewer_index ["a"; "b"; "c"] " +42abc" 7 42)
      as (_ & _ & _ & _ & S); [simpl; lia | reflexivity | reflexivity |].
    exact S.
Defined.

(** C8.  [selectRandomReviewer] throws exactly when the list of candidates
    is empty; for any other list it returns one identity, an entry of the
    list; and for a list of one entry it returns that entry, whatever the
    seed and the pull-request number. *)
Theorem selectRandomReviewer_total
    (reviewers : list string) (seed : string) (prNumber : Z) :
  ((exists e, selectRandomReviewer reviewers seed prNumber = Throw e)
   <-> reviewers = [])
  /\ (reviewers <> [] ->
      exists r, selectRandomReviewer reviewers seed prNumber = Normal (Some r)
                /\ In r reviewers)
  /\ (forall r, reviewers = [r] ->
      selectRandomReviewer reviewers seed prNumber = Normal (Some r)).
Proof.
  assert (Some_entry : reviewers <> [] ->
            exists r, selectRandomReviewer reviewers seed prNumber = Normal (Some r)
                      /\ In r reviewers).
  { intros Hne. destruct reviewers as [|r0 [|r1 rest]]; [contradiction | |].
    - exists r0. split; [reflexivity | now left].
    - set (rs := r0 :: r1 :: rest).
      assert (L : (2 <= List.length rs)%nat) by (simpl; lia).
      rewrite (selectRandomReviewer_hashed rs seed prNumber L).
      destruct (index_in_range (hashLoop (String_of (randomSeed seed prNumber)) 0)
                  (List.length rs) ltac:(lia)) as [_ B].
      destruct (nth_error rs _) as [r |] eqn:E.
      + exists r. split; [reflexivity | eapply nth_error_In; eauto].
      + apply nth_error_None in E. lia. }
  split; [split | split].
  - intros [e T]. destruct reviewers as [|r0 rest]; [reflexivity |].
    destruct Some_entry as (r & S & _); [discriminate | congruence].
  - intros ->. eexists. reflexivity.
  - exact Some_entry.
  - intros r ->. reflexivity.
Qed.

(** The empty list throws, a list of one entry gives its entry. *)
Lemma selectRandomReviewer_total_witness :
  selectRandomReviewer [] "7" 42 = Throw (Error "No reviewers provided")
  /\ selectRandomReviewer ["bob"] "my-stable-seed" 42 = Normal (Some "bob").
Proof.
  split; [reflexivity |].
  destruct (selectRandomReviewer_total ["bob"] "my-stable-seed" 42) as (_ & _ & One).
  exact (One "bob" eq_refl).
Defined.

(** C9.  A seed that is supplied and does not parse as an integer makes
    the text hashed [NaN], whose hash is 78043: for a list of two
    candidates or more the entry selected is the one at 78043 modulo the
    length of the list, whatever the text of the seed and whatever the
    pull-request number. *)
Theorem selectRandomReviewer_unparsed_seed
    (reviewers : list string) (seed : string) (prNumber : Z) :
  (2 <= List.length reviewers)%nat ->
  seed <> "" -> parseInt10 seed = NaN ->
  String_of (randomSeed seed prNumber) = "NaN"
  /\ hashLoop "NaN" 0 = 78043
  /\ selectRandomReviewer reviewers seed prNumber =
     Normal (nth_error reviewers
               (Z.to_nat (78043 mod Z.of_nat (List.length reviewers))))
  /\ (forall (seed' : string) (prNumber' : Z),
        seed' <> "" -> parseInt10 seed' = NaN ->
        selectRandomReviewer reviewers seed' prNumber' =
        selectRandomReviewer reviewers seed prNumber).
Proof.
  intros L Hs Hp.
  assert (T : forall s n, s <> "" -> parseInt10 s = NaN ->
            String_of (randomSeed s n) = "NaN").
  { intros s n Hne Hnan. unfold randomSeed.
    destruct (String.eqb_spec s ""); [contradiction |]. cbn [negb]. now rewrite Hnan. }
  assert (S : forall s n, s <> "" -> parseInt10 s = NaN ->
            selectRandomReviewer reviewers s n =
            Normal (nth_error reviewers
                      (Z.to_nat (78043 mod Z.of_nat (List.length reviewers))))).
  { intros s n Hne Hnan.
    rewrite (selectRandomReviewer_hashed _ _ _ L), (T s n Hne Hnan). reflexivity. }
  split; [now apply T |]. split; [reflexivity |]. split; [now apply S |].
  intros seed' prNumber' Hs' Hp'. now rewrite !S.
Qed.

(** The seed of the README, [my-stable-seed], on a list of three: the
    entry at index 78043 mod 3 = 1, for the pull requests 42 and 7 alike,
    and for the seed [zzz] too. *)
Lemma selectRandomReviewer_unparsed_seed_witness :
  parseInt10 "my-stable-seed" = NaN
  /\ selectRandomReviewer ["a"; "b"; "c"] "my-stable-seed" 42 = Normal (Some "b")
  /\ selectRandomReviewer ["a"; "b"; "c"] "zzz" 7
     = selectRandomReviewer ["a"; "b"; "c"] "my-stable-seed" 42.
Proof.
  split; [reflexivity |].
  destruct (selectRandomReviewer_unparsed_seed ["a"; "b"; "c"] "my-stable-seed" 42)
    as (_ & _ & S & Same).
  - simpl; lia.
  - discriminate.
  - reflexivity.
  - split; [exact S | apply Same; [discriminate | reflexivity]].
Defined.

(** ** Author exclusion *)



(** * Further properties of the code *)

(** ** Inclusion of texts *)

Lemma prefix_spec (n h : string) :
  String.prefix n h = true <-> exists post, h = n ++ post.
Proof.
  split.
  - revert h. induction n as [|c n IH]; intros h H.
    + now exists h.
    + destruct h as [|d h]; simpl in H; [discriminate |].
      destruct (ascii_dec c d) as [-> |]; [| discriminate].
      destruct (IH h H) as [post ->]. now exists post.
  - intros [post ->]. apply prefix_append.
Qed.

(** [includes] holds exactly of the texts that have the other text
    between a beginning and an end. *)
Lemma includes_spec (n h : string) :
  includes n h = true <-> exists pre post, h = pre ++ n ++ post.
Proof.
  split.
  - induction h as [|d h IH]; cbn [includes]; intros H.
    + rewrite orb_false_r in H. apply prefix_spec in H as [post E].
      now exists "", post.
    + apply orb_true_iff in H as [H | H].
      * apply prefix_spec in H as [post E]. now exists "", post.
      * destruct (IH H) as (pre & post & ->). now exists (String d pre), post.
  - intros (pre & post & ->). apply includes_part.
Qed.

Lemma includes_trans (a b c : string) :
  includes a b = true -> includes b c = true -> includes a c = true.
Proof.
  intros H1 H2.
  apply includes_spec in H1 as (p1 & q1 & ->).
  apply includes_spec in H2 as (p2 & q2 & ->).
  apply includes_spec. exists (p2 ++ p1), (q1 ++ q2).
  now rewrite !append_assoc.
Qed.

(** ** Urgency detection: which tier comes out *)

Section Flags.

Variables checkboxP0 checkboxP1 checkboxP2 : string.

Let m0 := lineMarks checkboxP0.
Let m1 := lineMarks checkboxP1.
Let m2 := lineMarks checkboxP2.

(** One turn of the loop, flag by flag. *)
Lemma scanLine_flags (st : found) (line : string) :
  scanLine checkboxP0 checkboxP1 checkboxP2 st line =
  mkFound (foundP0 st || m0 line)
          (foundP1 st || (negb (m0 line) && m1 line))
          (foundP2 st || (negb (m0 line) && negb (m1 line) && m2 line)).
Proof.
  unfold scanLine, m0, m1, m2, lineMarks, isCandidateMarkerLine. cbv zeta.
  destruct st as [f0 f1 f2]. cbn [foundP0 foundP1 foundP2].
  destruct (test checkboxPattern (trim line)); cbn [andb negb].
  - destruct (includes (toLowerCase checkboxP0) (toLowerCase (trim line)));
      cbn [andb negb]; [now rewrite !orb_true_r, !orb_false_r |].
    destruct (includes (toLowerCase checkboxP1) (toLowerCase (trim line)));
      cbn [andb negb]; [now rewrite !orb_true_r, !orb_false_r |].
    destruct (includes (toLowerCase checkboxP2) (toLowerCase (trim line)));
      cbn [andb negb]; now rewrite ?orb_true_r, ?orb_false_r.
  - now rewrite !orb_false_r.
Qed.

(** The flags after the loop. *)
Lemma scan_flags (lines : list string) :
  forall st,
    fold_left (scanLine checkboxP0 checkboxP1 checkboxP2) lines st =
    mkFound (foundP0 st || existsb m0 lines)
            (foundP1 st || existsb (fun l => negb (m0 l) && m1 l) lines)
            (foundP2 st
             || existsb (fun l => negb (m0 l) && negb (m1 l) && m2 l) lines).
Proof.
  induction lines as [|line lines IH]; intros st; cbn [fold_left existsb].
  - destruct st as [f0 f1 f2]. cbn [foundP0 foundP1 foundP2].
    now rewrite !orb_false_r.
  - rewrite IH, scanLine_flags. cbn [foundP0 foundP1 foundP2].
    now rewrite !orb_assoc.
Qed.

Lemma existsb_unshadowed (lines : list string) :
  existsb m0 lines = false ->
  existsb (fun l => negb (m0 l) && m1 l) lines = existsb m1 lines.
Proof.
  induction lines as [|line lines IH]; cbn [existsb]; [reflexivity |].
  intros H. apply orb_false_iff in H as [H0 H]. now rewrite H0, IH.
Qed.

End Flags.

(** The flags after the loop decide the tier. *)
Lemma detectUrgency_flags (prBody checkboxP0 checkboxP1 checkboxP2 : string) :
  let lines := split newline prBody in
  let flags := fold_left (scanLine checkboxP0 checkboxP1 checkboxP2) lines
                 (mkFound false false false) in
  detectUrgency prBody checkboxP0 checkboxP1 checkboxP2 =
  if foundP0 flags then p0 else if foundP1 flags then p1 else p2.
Proof.
  unfold detectUrgency. cbv zeta.
  destruct (foundP0 _); [reflexivity |].
  destruct (foundP1 _); [reflexivity |].
  now destruct (foundP2 _).
Qed.

(** The tier, read off the lines of the description. *)
Lemma detectUrgency_of_lines (prBody checkboxP0 checkboxP1 checkboxP2 : string) :
  detectUrgency prBody checkboxP0 checkboxP1 checkboxP2 =
  if existsb (lineMarks checkboxP0) (split newline prBody) then p0
  else if existsb (lineMarks checkboxP1) (split newline prBody) then p1
  else p2.
Proof.
  rewrite detectUrgency_flags. cbv zeta. rewrite scan_flags.
  cbn [foundP0 foundP1 foundP2 orb].
  destruct (existsb (lineMarks checkboxP0) (split newline prBody)) eqn:E0;
    [reflexivity |].
  now rewrite (existsb_unshadowed _ _ _ E0).
Qed.

(** X1.  The tier returned is the highest one marked on some checked line: [p0]
    when a candidate marker line holds the first label, else [p1] when one
    holds the second label, else [p2].  The chain of [else if] in the loop
    changes nothing of that, and the third label has no part in it. *)
Theorem detectUrgency_highest_marked (prBody checkboxP0 checkboxP1 checkboxP2 : string) :
  detectUrgency prBody checkboxP0 checkboxP1 checkboxP2 =
  if someLineMarks checkboxP0 prBody then p0
  else if someLineMarks checkboxP1 prBody then p1
  else p2.
Proof.
  unfold detectUrgency, someLineMarks. cbv zeta. rewrite scan_flags.
  cbn [foundP0 foundP1 foundP2 orb].
  destruct (existsb (lineMarks checkboxP0) (split newline prBody)) eqn:E0;
    [reflexivity |].
  rewrite (existsb_unshadowed _ _ _ E0).
  destruct (existsb (lineMarks checkboxP1) (split newline prBody)); [reflexivity |].
  match goal with |- (if ?b then _ else _) = _ => now destruct b end.
Qed.

(** X2.  The text given for the lowest tier is never looked at to any effect:
    two runs that differ in the third label return the same tier. *)
Theorem detectUrgency_ignores_third_label
    (prBody checkboxP0 checkboxP1 checkboxP2 otherP2 : string) :
  detectUrgency prBody checkboxP0 checkboxP1 checkboxP2
  = detectUrgency prBody checkboxP0 checkboxP1 otherP2.
Proof.
  unfold detectUrgency. cbv zeta. rewrite !scan_flags.
  cbn [foundP0 foundP1 foundP2 orb].
  destruct (existsb (lineMarks checkboxP0) (split newline prBody)); [reflexivity |].
  destruct (existsb (fun l => negb (lineMarks checkboxP0 l) && lineMarks checkboxP1 l)
              (split newline prBody)); [reflexivity |].
  now repeat match goal with |- context [if ?b then _ else _] => destruct b end.
Qed.

Lemma existsb_Permutation {A : Type} (f : A -> bool) (l l' : list A) :
  Permutation l l' -> existsb f l = existsb f l'.
Proof.
  induction 1; cbn [existsb].
  - reflexivity.
  - now rewrite IHPermutation.
  - now rewrite !orb_assoc, (orb_comm (f y)).
  - congruence.
Qed.

(** X3.  The order of the lines has no part in the tier: two descriptions whose
    lines are the same up to their order get the same tier. *)
Theorem detectUrgency_line_order
    (prBody otherBody checkboxP0 checkboxP1 checkboxP2 : string) :
  Permutation (split newline prBody) (split newline otherBody) ->
  detectUrgency prBody checkboxP0 checkboxP1 checkboxP2
  = detectUrgency otherBody checkboxP0 checkboxP1 checkboxP2.
Proof.
  intros P. rewrite !detectUrgency_of_lines.
  now rewrite !(existsb_Permutation _ _ _ P).
Qed.

(** The three boxes of the test suite, checked, from the lowest to the
    highest and the other way round. *)
Lemma detectUrgency_line_order_witness :
  detectUrgency ("- [x] P2" ++ String newline "- [x] P0") "P0" "P1" "P2"
  = detectUrgency ("- [x] P0" ++ String newline "- [x] P2") "P0" "P1" "P2".
Proof.
  apply detectUrgency_line_order. cbn. apply perm_swap.
Defined.

(** X4.  A first label whose text occurs in the second label hides the second
    tier: every checked line that holds the second label holds the first
    one too, so [p1] is never returned. *)
Theorem detectUrgency_shadowed_label
    (prBody checkboxP0 checkboxP1 checkboxP2 : string) :
  includes (toLowerCase checkboxP0) (toLowerCase checkboxP1) = true ->
  detectUrgency prBody checkboxP0 checkboxP1 checkboxP2 <> p1.
Proof.
  intros S. rewrite detectUrgency_of_lines.
  destruct (existsb (lineMarks checkboxP0) (split newline prBody)) eqn:E0;
    [discriminate |].
  destruct (existsb (lineMarks checkboxP1) (split newline prBody)) eqn:E1;
    [| discriminate].
  exfalso. apply existsb_exists in E1 as (line & I & M).
  assert (M0 : lineMarks checkboxP0 line = true).
  { unfold lineMarks in *. apply andb_true_iff in M as [C L].
    rewrite C. cbn [andb]. exact (includes_trans _ _ _ S L). }
  assert (E : existsb (lineMarks checkboxP0) (split newline prBody) = true)
    by (apply existsb_exists; eauto).
  congruence.
Qed.

(** With the labels [Urgent] and [Not urgent] a checked [Not urgent] box
    gets the highest tier. *)
Lemma detectUrgency_shadowed_label_witness :
  includes (toLowerCase "Urgent") (toLowerCase "Not urgent") = true
  /\ detectUrgency "- [x] Not urgent" "Urgent" "Not urgent" "Low" = p0
  /\ detectUrgency "- [x] Not urgent" "Urgent" "Not urgent" "Low" <> p1.
Proof.
  split; [reflexivity | split; [reflexivity |]].
  apply detectUrgency_shadowed_label. reflexivity.
Defined.

(** ** Urgency detection: white space around a line *)

Lemma trimStart_all_space (ws : string) :
  allChars isWhiteSpace ws = true -> trimStart ws = "".
Proof.
  induction ws as [|c ws IH]; simpl; [reflexivity |].
  intros H. apply andb_true_iff in H as [C W]. rewrite C. now apply IH.
Qed.

Lemma trimEnd_all_space (ws : string) :
  allChars isWhiteSpace ws = true -> trimEnd ws = "".
Proof.
  induction ws as [|c ws IH]; simpl; [reflexivity |].
  intros H. apply andb_true_iff in H as [C W]. now rewrite (IH W), C.
Qed.

Lemma trimEnd_drops (s ws : string) :
  allChars isWhiteSpace ws = true -> trimEnd (s ++ ws) = trimEnd s.
Proof.
  intros W. induction s as [|c s IH]; simpl.
  - now apply trimEnd_all_space.
  - now rewrite IH.
Qed.

Lemma trimStart_append (s t : string) :
  trimStart s <> "" -> trimStart (s ++ t) = trimStart s ++ t.
Proof.
  induction s as [|c s IH]; simpl; [congruence |].
  destruct (isWhiteSpace c); [exact IH | reflexivity].
Qed.

(** [trim] takes the white space around a text away, however much of it
    there is. *)
Lemma trim_padded (before line after : string) :
  allChars isWhiteSpace before = true -> allChars isWhiteSpace after = true ->
  trim (before ++ line ++ after) = trim line.
Proof.
  intros B A. unfold trim. rewrite (trimStart_skips before _ B).
  destruct (trimStart line) as [|c t] eqn:T.
  - destruct (trimStart_split line) as (ws & E & W). rewrite T in E.
    rewrite E. rewrite append_assoc. cbn [append].
    rewrite trimStart_all_space; [reflexivity |].
    now rewrite allChars_append, W, A.
  - rewrite trimStart_append by (rewrite T; discriminate).
    rewrite T. now apply trimEnd_drops.
Qed.

Lemma existsb_Forall2 {A : Type} (f : A -> bool) (R : A -> A -> Prop) (l l' : list A) :
  (forall a b, R a b -> f b = f a) -> Forall2 R l l' -> existsb f l' = existsb f l.
Proof.
  intros E. induction 1 as [| a b l l' H _ IH]; cbn [existsb]; [reflexivity |].
  now rewrite (E a b H), IH.
Qed.

(** X5.  Indentation before a line and white space after it, the carriage
    return of a CRLF line end among it, change nothing of the tier: two
    descriptions whose lines are the same, line for line, up to the white
    space around them get the same tier. *)
Theorem detectUrgency_ignores_padding
    (prBody otherBody checkboxP0 checkboxP1 checkboxP2 : string) :
  Forall2 paddedLine (split newline prBody) (split newline otherBody) ->
  detectUrgency otherBody checkboxP0 checkboxP1 checkboxP2
  = detectUrgency prBody checkboxP0 checkboxP1 checkboxP2.
Proof.
  intros P. rewrite !detectUrgency_of_lines.
  assert (M : forall label line padded,
            paddedLine line padded -> lineMarks label padded = lineMarks label line).
  { intros label line padded (before & after & B & A & ->).
    unfold lineMarks, isCandidateMarkerLine.
    now rewrite (trim_padded before line after B A). }
  now rewrite !(existsb_Forall2 _ paddedLine _ _ (M _) P).
Qed.

(** A description with CRLF line ends and an indented box, and the same
    description with LF line ends and no indentation. *)
Lemma detectUrgency_ignores_padding_witness :
  detectUrgency
    ("  - [x] P1" ++ String (ascii_of_nat 13) (String newline "- [ ] P0"))
    "P0" "P1" "P2"
  = detectUrgency ("- [x] P1" ++ String newline "- [ ] P0") "P0" "P1" "P2".
Proof.
  apply detectUrgency_ignores_padding.
  apply Forall2_cons; [| apply Forall2_cons; [| apply Forall2_nil]].
  - exists "  ", (String (ascii_of_nat 13) ""). now repeat split.
  - exists "", "". now repeat split.
Defined.

(** ** Fetching: what every run has *)

(** No event of a short list of events is the one looked for. *)
Ltac no_such_event :=
  let I := fresh "I" in
  intros I; cbn [In app] in I;
  repeat (destruct I as [I | I]; [discriminate I |]); contradiction.

(** The facts about one branch of a turn. *)
Ltac branch_facts :=
  cbn [fst snd]; repeat split;
  first [ discriminate
        | solve [eauto]
        | match goal with
          | H : Raise _ = Raise ?e |- _ =>
              injection H as H; subst e; eexists; reflexivity
          end
        | no_such_event ].

(** What a turn of the retry loop can do, whatever it meets: it calls
    [fetch] once; it waits, for the delay of the turn, exactly when it goes
    on to a next turn, which the third turn never does; it raises only in
    the strict mode, from the [catch] block; it returns [null] only in the
    lenient mode; and it never writes the warning of the code after the
    loop. *)
Lemma attemptBody_outcome apiKey urgency failOnApiError attempt outcome :
  let turn := attemptBody apiKey urgency failOnApiError attempt outcome in
  fetchCalls (fst turn) = [fetchRequest apiKey urgency]
  /\ delays (fst turn)
     = match snd turn with
       | Continue => [delayMs (delayAt attempt)]
       | _ => []
       end
  /\ (snd turn = Continue -> (attempt < maxRetries)%nat)
  /\ (forall e, snd turn = Raise e ->
      failOnApiError = true
      /\ exists m, e = Error ("CR Cab API network error: " ++ m))
  /\ (snd turn = Return None -> failOnApiError = false)
  /\ ~ In (LogWarning
             "CR Cab API unavailable after retries. Skipping comment and continuing.")
          (fst turn).
Proof.
  cbv zeta. split; [apply attemptBody_fetches_once |].
  unfold attemptBody, tryBlock, catchBlock.
  assert (L : forall b, (b && Nat.ltb attempt maxRetries)%bool = true ->
            (attempt < maxRetries)%nat)
    by (intros b H; apply andb_true_iff in H as [_ H]; now apply Nat.ltb_lt).
  assert (L' : forall b, (Nat.ltb attempt maxRetries && b)%bool = true ->
            (attempt < maxRetries)%nat)
    by (intros b H; apply andb_true_iff in H as [H _]; now apply Nat.ltb_lt).
  destruct outcome as [resp | err].
  - destruct (negb (ok resp)).
    + destruct ((500 <=? status resp) && Nat.ltb attempt maxRetries)%bool eqn:R;
        [branch_facts |].
      destruct failOnApiError.
      * destruct (Nat.ltb attempt maxRetries && _)%bool eqn:R'; branch_facts.
      * destruct (500 <=? status resp); branch_facts.
    + destruct (parseReviewers resp) as [rs | err]; [branch_facts |].
      destruct (Nat.ltb attempt maxRetries && _)%bool eqn:R'; [branch_facts |].
      destruct failOnApiError; branch_facts.
  - destruct (Nat.ltb attempt maxRetries && _)%bool eqn:R'; [branch_facts |].
    destruct failOnApiError; branch_facts.
Qed.

(** The run, turn by turn. *)
Lemma fetchReviewers_turns network apiKey urgency failOnApiError :
  let turn n := attemptBody apiKey urgency failOnApiError n (network n) in
  fetchReviewers network apiKey urgency failOnApiError =
  match snd (turn 0%nat) with
  | Return v => (fst (turn 0%nat), Normal v)
  | Raise e => (fst (turn 0%nat), Throw e)
  | Continue =>
      match snd (turn 1%nat) with
      | Return v => ((fst (turn 0%nat) ++ fst (turn 1%nat))%list, Normal v)
      | Raise e => ((fst (turn 0%nat) ++ fst (turn 1%nat))%list, Throw e)
      | Continue =>
          match snd (turn 2%nat) with
          | Return v =>
              ((fst (turn 0%nat) ++ fst (turn 1%nat) ++ fst (turn 2%nat))%list,
               Normal v)
          | Raise e =>
              ((fst (turn 0%nat) ++ fst (turn 1%nat) ++ fst (turn 2%nat))%list,
               Throw e)
          | Continue =>
              ((fst (turn 0%nat) ++ fst (turn 1%nat) ++ fst (turn 2%nat)
                  ++ fst (afterLoop failOnApiError))%list,
               snd (afterLoop failOnApiError))
          end
      end
  end.
Proof.
  cbv zeta. unfold fetchReviewers. cbn [retryLoop maxRetries Nat.leb].
  destruct (attemptBody apiKey urgency failOnApiError 0 (network 0%nat)) as [e0 c0].
  destruct (attemptBody apiKey urgency failOnApiError 1 (network 1%nat)) as [e1 c1].
  destruct (attemptBody apiKey urgency failOnApiError 2 (network 2%nat)) as [e2 c2].
  destruct (afterLoop failOnApiError) as [ea ra].
  cbn [fst snd].
  destruct c0; [| reflexivity | reflexivity].
  destruct c1; [| reflexivity | reflexivity].
  destruct c2; reflexivity.
Qed.

(** Splits a run into its turns and recalls the facts of each turn. *)
Ltac by_turns network apiKey urgency failOnApiError :=
  rewrite (fetchReviewers_turns network apiKey urgency failOnApiError); cbv zeta;
  pose proof (attemptBody_outcome apiKey urgency failOnApiError 0 (network 0%nat))
    as (F0 & D0 & C0 & R0 & N0 & A0);
  pose proof (attemptBody_outcome apiKey urgency failOnApiError 1 (network 1%nat))
    as (F1 & D1 & C1 & R1 & N1 & A1);
  pose proof (attemptBody_outcome apiKey urgency failOnApiError 2 (network 2%nat))
    as (F2 & D2 & C2 & R2 & N2 & A2);
  destruct (attemptBody apiKey urgency failOnApiError 0 (network 0%nat)) as [e0 c0];
  destruct (attemptBody apiKey urgency failOnApiError 1 (network 1%nat)) as [e1 c1];
  destruct (attemptBody apiKey urgency failOnApiError 2 (network 2%nat)) as [e2 c2];
  cbn [fst snd] in *;
  destruct c0 as [| v0 | x0];
  [ destruct c1 as [| v1 | x1];
    [ destruct c2 as [| v2 | x2];
      [ exfalso; specialize (C2 eq_refl); unfold maxRetries in C2; lia | | ] | | ]
  | | ];
  cbn [fst snd].

Lemma fetchCalls_app (evs evs' : list event) :
  fetchCalls (evs ++ evs') = (fetchCalls evs ++ fetchCalls evs')%list.
Proof. apply flat_map_app. Qed.

Lemma delays_app (evs evs' : list event) :
  delays (evs ++ evs') = (delays evs ++ delays evs')%list.
Proof. apply flat_map_app. Qed.

(** X6.  Whatever the network does, a call of [fetchReviewers] makes one, two
    or three requests and never a fourth; it waits once less than it
    fetches; and the waits are 250 ms, then 750 ms, one second in all at
    the most. *)
Theorem fetchReviewers_bounded
    (network : nat -> fetchOutcome) (apiKey urgency : string) (failOnApiError : bool) :
  let evs := fst (fetchReviewers network apiKey urgency failOnApiError) in
  (1 <= List.length (fetchCalls evs) <= 3)%nat
  /\ List.length (fetchCalls evs) = S (List.length (delays evs))
  /\ delays evs = firstn (List.length (delays evs)) retryDelays
  /\ fold_right Z.add 0 (delays evs) <= 1000.
Proof.
  cbv zeta. by_turns network apiKey urgency failOnApiError;
    rewrite ?fetchCalls_app, ?delays_app, ?F0, ?F1, ?F2, ?D0, ?D1, ?D2;
    cbn; repeat split; lia.
Qed.

(** X7.  The code after the loop, marked [Should not reach here] in the source,
    is never reached: no run writes its warning, and no run raises its
    error. *)
Theorem fetchReviewers_after_loop_unreachable
    (network : nat -> fetchOutcome) (apiKey urgency : string) (failOnApiError : bool) :
  ~ In (LogWarning
          "CR Cab API unavailable after retries. Skipping comment and continuing.")
       (fst (fetchReviewers network apiKey urgency failOnApiError))
  /\ snd (fetchReviewers network apiKey urgency failOnApiError)
     <> Throw (Error "CR Cab API unavailable after retries").
Proof.
  by_turns network apiKey urgency failOnApiError;
    (split;
     [ rewrite ?in_app_iff; tauto
     | try discriminate;
       intros [= E];
       match goal with
       | H : forall e, Raise ?x = Raise e -> _ |- _ =>
           destruct (H x eq_refl) as (_ & m & M); rewrite M in E; discriminate E
       end ]).
Qed.

(** X8.  The mode decides between raising and [null]: the strict mode never
    returns [null], the lenient mode never raises, and what the strict
    mode raises is always an [Error] whose message begins with
    [CR Cab API network error: ], for an error status of the service as
    for a failure of the network. *)
Theorem fetchReviewers_mode_decides
    (network : nat -> fetchOutcome) (apiKey urgency : string) (failOnApiError : bool) :
  (snd (fetchReviewers network apiKey urgency failOnApiError) = Normal None ->
   failOnApiError = false)
  /\ (forall e,
        snd (fetchReviewers network apiKey urgency failOnApiError) = Throw e ->
        failOnApiError = true
        /\ exists m, e = Error ("CR Cab API network error: " ++ m)).
Proof.
  by_turns network apiKey urgency failOnApiError;
    (split; [ try discriminate; intros [= ->]; auto
            | try discriminate; intros e [= ->]; auto ]).
Qed.

(** ** Fetching: success *)

(** A success answer that parses ends the run at once. *)
Lemma attemptBody_success apiKey urgency failOnApiError attempt
    (resp : response) (rs : list json) :
  ok resp = true -> parseReviewers resp = Normal rs ->
  attemptBody apiKey urgency failOnApiError attempt (Resolves resp)
  = ([Fetched (fetchRequest apiKey urgency)], Return (Some rs)).
Proof.
  intros K P. unfold attemptBody, tryBlock. now rewrite K, P.
Qed.

Lemma normalizeReviewers_carried (items : list json) (names : list string) :
  Forall2 carries items names ->
  normalizeReviewers items = Normal (map JString names).
Proof.
  induction 1 as [| entry name items names C _ IH]; [reflexivity |].
  cbn [normalizeReviewers map]. rewrite IH.
  destruct C as [-> | (fields & -> & L & N)]; [reflexivity |].
  unfold normalizeReviewer. cbn [truthy getProperty]. rewrite L. cbn [truthy].
  destruct (String.eqb_spec name ""); [contradiction | reflexivity].
Qed.

(** X9.  The two shapes of a payload are read alike, and its entries keep their
    order and their number: a success answer, a bare array or a record
    with a [reviewers] array, whose entries are strings or records with a
    [githubUsername], is answered with the identities of the entries, one
    for one, after a single request and without a diagnostic, in both
    modes. *)
Theorem fetchReviewers_payload
    (network : nat -> fetchOutcome) (apiKey urgency : string) (failOnApiError : bool)
    (resp : response) (data : json) (items : list json) (names : list string) :
  network 0%nat = Resolves resp -> ok resp = true -> body resp = Normal data ->
  payloadOf data items -> Forall2 carries items names ->
  fetchReviewers network apiKey urgency failOnApiError
  = ([Fetched (fetchRequest apiKey urgency)], Normal (Some (map JString names))).
Proof.
  intros N K B P C.
  assert (R : parseReviewers resp = Normal (map JString names)).
  { unfold parseReviewers. rewrite B.
    destruct P as [-> | (fields & -> & L)].
    - now apply normalizeReviewers_carried.
    - cbn [getProperty]. rewrite L. now apply normalizeReviewers_carried. }
  unfold fetchReviewers. cbn [retryLoop maxRetries Nat.leb]. rewrite N.
  now rewrite (attemptBody_success _ _ _ _ resp _ K R).
Qed.

(** The two payloads of the repository's tests for the same reviewers. *)
Lemma fetchReviewers_payload_witness :
  fetchReviewers (always (Resolves bareArrayAnswer)) "test-api-key" "p2" false
  = ([Fetched (fetchRequest "test-api-key" "p2")],
     Normal (Some [JString "reviewer1"; JString "reviewer2"]))
  /\ fetchReviewers (always (Resolves recordAnswer)) "test-api-key" "p2" false
     = fetchReviewers (always (Resolves bareArrayAnswer)) "test-api-key" "p2" false.
Proof.
  assert (A : fetchReviewers (always (Resolves bareArrayAnswer)) "test-api-key" "p2" false
              = ([Fetched (fetchRequest "test-api-key" "p2")],
                 Normal (Some (map JString ["reviewer1"; "reviewer2"])))).
  { apply (fetchReviewers_payload (always (Resolves bareArrayAnswer))
             "test-api-key" "p2" false bareArrayAnswer
             (JArray [JString "reviewer1"; JString "reviewer2"])
             [JString "reviewer1"; JString "reviewer2"] ["reviewer1"; "reviewer2"]);
      try reflexivity.
    - now left.
    - apply Forall2_cons; [| apply Forall2_cons; [| apply Forall2_nil]]; now left. }
  split; [exact A |]. rewrite A.
  apply (fetchReviewers_payload (always (Resolves recordAnswer))
           "test-api-key" "p2" false recordAnswer
           (JObject
              [("reviewers",
                JArray [JObject [("githubUsername", JString "reviewer1")];
                        JObject [("githubUsername", JString "reviewer2")]]);
               ("count", JNumber 2)])
           [JObject [("githubUsername", JString "reviewer1")];
            JObject [("githubUsername", JString "reviewer2")]]
           ["reviewer1"; "reviewer2"]);
    try reflexivity.
  - right. eexists. split; reflexivity.
  - apply Forall2_cons; [| apply Forall2_cons; [| apply Forall2_nil]];
      right; eexists; (split; [reflexivity | split; [reflexivity | discriminate]]).
Defined.

(** ** Fetching: recovery *)

(** X10.  One or two answers with a status of 500 or more, then a success answer
    that parses: the reviewers of the success answer are returned, with
    one request more than there were failures, a wait after each failure
    and no warning. *)
Theorem fetchReviewers_recovers
    (network : nat -> fetchOutcome) (apiKey urgency : string) (failOnApiError : bool)
    (failures : nat) (resp : response) (rs : list json) :
  (failures <= 2)%nat ->
  (forall i, (i < failures)%nat ->
     exists r, network i = Resolves r /\ responseWf r /\ 500 <= status r) ->
  network failures = Resolves resp -> ok resp = true ->
  parseReviewers resp = Normal rs ->
  let run := fetchReviewers network apiKey urgency failOnApiError in
  snd run = Normal (Some rs)
  /\ List.length (fetchCalls (fst run)) = S failures
  /\ delays (fst run) = firstn failures retryDelays
  /\ warnings (fst run) = [].
Proof.
  intros Hk Bad N K P. cbv zeta.
  unfold fetchReviewers. cbn [retryLoop maxRetries Nat.leb].
  pose proof (fun a => attemptBody_success apiKey urgency failOnApiError a resp rs K P)
    as S.
  destruct failures as [| [| [| failures]]]; [| | | lia].
  - rewrite N, S. repeat split.
  - destruct (Bad 0%nat ltac:(lia)) as (r0 & N0 & W0 & S0).
    rewrite N0, (attemptBody_5xx_retry _ _ _ 0 r0 (wf_5xx_not_ok _ W0 S0) S0) by lia.
    rewrite N, S. repeat split.
  - destruct (Bad 0%nat ltac:(lia)) as (r0 & N0 & W0 & S0).
    destruct (Bad 1%nat ltac:(lia)) as (r1 & N1 & W1 & S1).
    rewrite N0, (attemptBody_5xx_retry _ _ _ 0 r0 (wf_5xx_not_ok _ W0 S0) S0) by lia.
    rewrite N1, (attemptBody_5xx_retry _ _ _ 1 r1 (wf_5xx_not_ok _ W1 S1) S1) by lia.
    rewrite N, S. repeat split.
Qed.

(** The run of the repository's test [retries on 500 error and succeeds on
    retry]. *)
Lemma fetchReviewers_recovers_witness :
  snd (fetchReviewers failsOnce "test-api-key" "p2" false)
  = Normal (Some [JString "reviewer1"; JString "reviewer2"])
  /\ List.length (fetchCalls (fst (fetchReviewers failsOnce "test-api-key" "p2" false)))
     = 2%nat
  /\ delays (fst (fetchReviewers failsOnce "test-api-key" "p2" false)) = [250].
Proof.
  destruct (fetchReviewers_recovers failsOnce "test-api-key" "p2" false 1
              bareArrayAnswer [JString "reviewer1"; JString "reviewer2"])
    as (R & C & D & _); try reflexivity.
  - lia.
  - intros i Hi. assert (i = 0%nat) as -> by lia.
    exists internalServerError. repeat split. simpl. lia.
  - repeat split; assumption.
Defined.

(** ** Fetching: rejections of [fetch] *)

(** A rejection the [catch] block retries, on one of the first two turns. *)
Lemma attemptBody_rejection_retry apiKey urgency failOnApiError attempt (e : error) :
  (String.eqb (name e) "TypeError" || includes "fetch" (message e))%bool = true ->
  (attempt < 2)%nat ->
  attemptBody apiKey urgency failOnApiError attempt (Rejects e) =
  ([Fetched (fetchRequest apiKey urgency);
    LogInfo ("Network error, retrying in " ++ delayText (delayAt attempt) ++ "ms "
               ++ attemptText attempt);
    Slept (delayMs (delayAt attempt))],
   Continue).
Proof.
  intros R A. unfold attemptBody, tryBlock, catchBlock. rewrite R.
  replace (Nat.ltb attempt maxRetries) with true
    by (symmetry; apply Nat.ltb_lt; unfold maxRetries; lia).
  reflexivity.
Qed.

(** A rejection that ends the run: the last turn, or a rejection the
    [catch] block does not retry. *)
Lemma attemptBody_rejection_final apiKey urgency failOnApiError attempt (e : error) :
  (Nat.ltb attempt maxRetries
   && (String.eqb (name e) "TypeError" || includes "fetch" (message e)))%bool = false ->
  attemptBody apiKey urgency failOnApiError attempt (Rejects e) =
  if failOnApiError
  then ([Fetched (fetchRequest apiKey urgency)],
        Raise (Error ("CR Cab API network error: " ++ message e)))
  else ([Fetched (fetchRequest apiKey urgency);
         LogWarning "CR Cab API network error. Skipping comment and continuing."],
        Return None).
Proof.
  intros R. unfold attemptBody, tryBlock, catchBlock. rewrite R.
  now destruct failOnApiError.
Qed.

(** X11.  Three rejections of [fetch] that are [TypeError]s or speak of [fetch]
    are met like three failures of the service: three requests, the waits
    of 250 ms and 750 ms, then [null] and the warning of a network error in
    the lenient mode, and in the strict mode an error that carries the
    message of the third rejection. *)
Theorem fetchReviewers_network_failure
    (network : nat -> fetchOutcome) (apiKey urgency : string) (failOnApiError : bool)
    (e0 e1 e2 : error) :
  network 0%nat = Rejects e0 -> network 1%nat = Rejects e1 ->
  network 2%nat = Rejects e2 ->
  (String.eqb (name e0) "TypeError" || includes "fetch" (message e0))%bool = true ->
  (String.eqb (name e1) "TypeError" || includes "fetch" (message e1))%bool = true ->
  fetchReviewers network apiKey urgency failOnApiError =
  ([Fetched (fetchRequest apiKey urgency);
    LogInfo "Network error, retrying in 250ms (attempt 1/2)";
    Slept 250;
    Fetched (fetchRequest apiKey urgency);
    LogInfo "Network error, retrying in 750ms (attempt 2/2)";
    Slept 750;
    Fetched (fetchRequest apiKey urgency)]
   ++ (if failOnApiError then []
       else [LogWarning "CR Cab API network error. Skipping comment and continuing."]),
   if failOnApiError
   then Throw (Error ("CR Cab API network error: " ++ message e2))
   else Normal None)%list.
Proof.
  intros N0 N1 N2 R0 R1.
  unfold fetchReviewers. cbn [retryLoop maxRetries Nat.leb].
  rewrite N0, N1, N2.
  rewrite (attemptBody_rejection_retry _ _ _ 0 e0 R0) by lia.
  rewrite (attemptBody_rejection_retry _ _ _ 1 e1 R1) by lia.
  rewrite (attemptBody_rejection_final _ _ _ 2 e2) by reflexivity.
  now destruct failOnApiError.
Qed.

(** The runs of the repository's tests of a network that is down. *)
Lemma fetchReviewers_network_failure_witness :
  snd (fetchReviewers (always (Rejects failedToFetch)) "test-api-key" "p2" false)
  = Normal None
  /\ snd (fetchReviewers (always (Rejects failedToFetch)) "test-api-key" "p2" true)
     = Throw (Error "CR Cab API network error: Failed to fetch").
Proof.
  split.
  - now rewrite (fetchReviewers_network_failure (always (Rejects failedToFetch))
                   "test-api-key" "p2" false failedToFetch failedToFetch failedToFetch).
  - now rewrite (fetchReviewers_network_failure (always (Rejects failedToFetch))
                   "test-api-key" "p2" true failedToFetch failedToFetch failedToFetch).
Defined.

(** X12.  Not every rejection of [fetch] is retried: one that is no [TypeError]
    and whose message does not hold [fetch] ends the run at the first
    request, with [null] and the warning in the lenient mode and with the
    error in the strict mode. *)
Theorem fetchReviewers_rejection_not_retried
    (network : nat -> fetchOutcome) (apiKey urgency : string) (failOnApiError : bool)
    (e : error) :
  network 0%nat = Rejects e ->
  name e <> "TypeError" -> includes "fetch" (message e) = false ->
  fetchReviewers network apiKey urgency failOnApiError =
  if failOnApiError
  then ([Fetched (fetchRequest apiKey urgency)],
        Throw (Error ("CR Cab API network error: " ++ message e)))
  else ([Fetched (fetchRequest apiKey urgency);
         LogWarning "CR Cab API network error. Skipping comment and continuing."],
        Normal None).
Proof.
  intros N T F.
  unfold fetchReviewers. cbn [retryLoop maxRetries Nat.leb]. rewrite N.
  rewrite (attemptBody_rejection_final _ _ _ 0 e).
  - now destruct failOnApiError.
  - apply String.eqb_neq in T. rewrite T, F. apply andb_false_r.
Qed.

(** A request that is aborted is not tried again. *)
Lemma fetchReviewers_rejection_not_retried_witness :
  fetchReviewers (always (Rejects aborted)) "test-api-key" "p2" true
  = ([Fetched (fetchRequest "test-api-key" "p2")],
     Throw (Error "CR Cab API network error: This operation was aborted")).
Proof.
  apply (fetchReviewers_rejection_not_retried (always (Rejects aborted))
           "test-api-key" "p2" true aborted eq_refl);
    [discriminate | reflexivity].
Defined.

(** ** Selection: seeds and positions *)

(** A seed that parses to the integer [n] selects what the pull request
    number [n] selects without a seed: the pull-request number of the run
    plays no part, and neither does what follows the digits of the seed. *)
Theorem selectRandomReviewer_numeric_seed
    (reviewers : list string) (seed : string) (prNumber n : Z) :
  seed <> "" -> parseInt10 seed = Int n ->
  selectRandomReviewer reviewers seed prNumber
  = selectRandomReviewer reviewers "" n.
Proof.
  intros Hs Hp. unfold selectRandomReviewer, randomSeed.
  destruct (String.eqb_spec seed ""); [contradiction |].
  cbn [negb String.eqb]. now rewrite Hp.
Qed.

(** The seeds [42], [42abc] and [ +42] on the pull request 7 all select
    what the pull request 42 selects. *)
Lemma selectRandomReviewer_numeric_seed_witness :
  selectRandomReviewer ["a"; "b"; "c"] "42abc" 7
  = selectRandomReviewer ["a"; "b"; "c"] "" 42
  /\ selectRandomReviewer ["a"; "b"; "c"] " +42" 7
     = selectRandomReviewer ["a"; "b"; "c"] "42" 7.
Proof.
  split.
  - apply selectRandomReviewer_numeric_seed; [discriminate | reflexivity].
  - rewrite (selectRandomReviewer_numeric_seed ["a"; "b"; "c"] " +42" 7 42);
      [| discriminate | reflexivity].
    symmetry. apply selectRandomReviewer_numeric_seed; [discriminate | reflexivity].
Defined.

(** Computes the value of the digit in the goal and leaves the rest to
    arithmetic. *)
Ltac digit_value :=
  match goal with
  | |- context [digitValue ?c] =>
      let v := eval vm_compute in (digitValue c) in
      change (digitValue c) with v; lia
  end.

Lemma digitsPrefix_acc (d : Decimal.uint) :
  forall acc : positive,
    digitsPrefix (NilEmpty.string_of_uint d) (Z.pos acc)
    = Z.pos (Pos.of_uint_acc d acc).
Proof.
  induction d; intros acc; cbn [NilEmpty.string_of_uint digitsPrefix Pos.of_uint_acc];
    [reflexivity | ..];
    (change (isDigit _) with true; cbv iota;
     match goal with
     | |- digitsPrefix _ ?v = Z.pos (Pos.of_uint_acc _ ?a) =>
         replace v with (Z.pos a) by digit_value
     end;
     apply IHd).
Qed.

Lemma digitsPrefix_value (d : Decimal.uint) :
  digitsPrefix (NilEmpty.string_of_uint d) 0 = Z.of_N (Pos.of_uint d).
Proof.
  induction d; cbn [NilEmpty.string_of_uint digitsPrefix Pos.of_uint];
    [reflexivity | exact IHd | ..];
    (change (isDigit _) with true; cbv iota;
     match goal with
     | |- digitsPrefix _ ?v = Z.of_N (N.pos (Pos.of_uint_acc _ ?a)) =>
         replace v with (Z.pos a) by digit_value
     end;
     apply digitsPrefix_acc).
Qed.

Lemma parseInt10_digits (d : Decimal.uint) :
  d <> Decimal.Nil ->
  parseInt10 (NilEmpty.string_of_uint d)
  = toNumber (digitsPrefix (NilEmpty.string_of_uint d) 0)
  /\ parseInt10 (String "-" (NilEmpty.string_of_uint d))
     = toNumber (- digitsPrefix (NilEmpty.string_of_uint d) 0).
Proof.
  intros H. destruct d; [contradiction | ..]; split; reflexivity.
Qed.

(** X13.  Reading back the decimal text of a safe integer gives the integer, so
    a seed that is the text of a number acts as that pull-request number
    would: [parseInt(String(n), 10)] is [n].  The integers of the
    statement are the safe ones, which [String] writes in decimal. *)
Theorem selectRandomReviewer_number_as_seed (n : Z) :
  isSafeInteger n = true ->
  parseInt10 (decimal n) = Int n
  /\ forall (reviewers : list string) (prNumber : Z),
       selectRandomReviewer reviewers (decimal n) prNumber
       = selectRandomReviewer reviewers "" n.
Proof.
  intros Safe.
  assert (P : parseInt10 (decimal n) = Int n).
  { rewrite <- (toNumber_safe n Safe).
    unfold decimal. destruct n as [| p | p]; cbn [Z.to_int NilEmpty.string_of_int].
    - reflexivity.
    - destruct (parseInt10_digits _ (Unsigned.to_uint_nonnil p)) as [-> _].
      now rewrite digitsPrefix_value, DecimalPos.Unsigned.of_to.
    - destruct (parseInt10_digits _ (Unsigned.to_uint_nonnil p)) as [_ ->].
      now rewrite digitsPrefix_value, DecimalPos.Unsigned.of_to. }
  split; [exact P |]. intros reviewers prNumber.
  unfold selectRandomReviewer, randomSeed.
  assert (N : decimal n <> "").
  { intros E. rewrite E in P. discriminate P. }
  destruct (String.eqb_spec (decimal n) ""); [contradiction |].
  cbn [negb String.eqb]. now rewrite P.
Qed.

(** The seed [42] on any pull request selects what the pull request 42
    selects without a seed. *)
Lemma selectRandomReviewer_number_as_seed_witness :
  parseInt10 (decimal 42) = Int 42
  /\ forall (reviewers : list string) (prNumber : Z),
       selectRandomReviewer reviewers (decimal 42) prNumber
       = selectRandomReviewer reviewers "" 42.
Proof.
  apply (selectRandomReviewer_number_as_seed 42). reflexivity.
Defined.

Lemma selectRandomReviewer_at_index (reviewers : list string) (seed : string) (prNumber : Z) :
  (1 <= List.length reviewers)%nat ->
  selectRandomReviewer reviewers seed prNumber =
  Normal (nth_error reviewers
            (if Nat.eqb (List.length reviewers) 1 then 0%nat
             else Z.to_nat (Z.abs (hashLoop (String_of (randomSeed seed prNumber)) 0)
                              mod Z.of_nat (List.length reviewers)))).
Proof.
  intros H. destruct (Nat.eqb_spec (List.length reviewers) 1) as [E | E].
  - unfold selectRandomReviewer. now rewrite E.
  - apply selectRandomReviewer_hashed. lia.
Qed.

(** X14.  The selection goes by position: the position picked depends on the
    seed, the pull-request number and the size of the pool, and on nothing
    else; two pools of one size give their entries at one position,
    whatever the names in them. *)
Theorem selectRandomReviewer_by_position (size : nat) (seed : string) (prNumber : Z) :
  (1 <= size)%nat ->
  exists position,
    (position < size)%nat
    /\ forall reviewers : list string,
         List.length reviewers = size ->
         selectRandomReviewer reviewers seed prNumber
         = Normal (nth_error reviewers position).
Proof.
  intros H.
  exists (if Nat.eqb size 1 then 0%nat
          else Z.to_nat (Z.abs (hashLoop (String_of (randomSeed seed prNumber)) 0)
                           mod Z.of_nat size)).
  split.
  - destruct (Nat.eqb size 1); [lia |]. apply index_in_range. lia.
  - intros reviewers <-. apply selectRandomReviewer_at_index. lia.
Qed.

(** Two pools of three, the same pull request: the second entry of each. *)
Lemma selectRandomReviewer_by_position_witness :
  exists position,
    selectRandomReviewer ["a"; "b"; "c"] "" 7 = Normal (nth_error ["a"; "b"; "c"] position)
    /\ selectRandomReviewer ["x"; "y"; "z"] "" 7
       = Normal (nth_error ["x"; "y"; "z"] position).
Proof.
  destruct (selectRandomReviewer_by_position 3 "" 7) as (position & _ & P); [lia |].
  exists position. split; apply P; reflexivity.
Defined.

(** ** Fetching: where a list comes from *)

Lemma attemptBody_returns_list apiKey urgency failOnApiError attempt outcome
    (rs : list json) :
  snd (attemptBody apiKey urgency failOnApiError attempt outcome) = Return (Some rs) ->
  exists resp,
    outcome = Resolves resp /\ ok resp = true /\ parseReviewers resp = Normal rs.
Proof.
  unfold attemptBody, tryBlock, catchBlock.
  destruct outcome as [resp | err].
  - destruct (ok resp) eqn:K; cbn [negb].
    + destruct (parseReviewers resp) as [rs' | err] eqn:P; cbn [snd].
      * intros [= ->]. now exists resp.
      * case_retry; [discriminate |]. destruct failOnApiError; discriminate.
    + destruct ((500 <=? status resp) && Nat.ltb attempt maxRetries)%bool;
        [discriminate |].
      destruct failOnApiError; [| discriminate].
      case_retry; discriminate.
  - case_retry; [discriminate |]. destruct failOnApiError; discriminate.
Qed.

(** X15.  Reviewers are never made up: a list that [fetchReviewers] returns is
    the list parsed from a success answer to one of its three requests. *)
Theorem fetchReviewers_list_from_success
    (network : nat -> fetchOutcome) (apiKey urgency : string) (failOnApiError : bool)
    (rs : list json) :
  snd (fetchReviewers network apiKey urgency failOnApiError) = Normal (Some rs) ->
  exists n resp,
    (n <= 2)%nat /\ network n = Resolves resp /\ ok resp = true
    /\ parseReviewers resp = Normal rs.
Proof.
  pose proof (attemptBody_returns_list apiKey urgency failOnApiError 0
                (network 0%nat) rs) as L0.
  pose proof (attemptBody_returns_list apiKey urgency failOnApiError 1
                (network 1%nat) rs) as L1.
  pose proof (attemptBody_returns_list apiKey urgency failOnApiError 2
                (network 2%nat) rs) as L2.
  by_turns network apiKey urgency failOnApiError; try discriminate;
    intros [= ->].
  - destruct (L2 eq_refl) as (resp & ? & ? & ?). exists 2%nat, resp. auto.
  - destruct (L1 eq_refl) as (resp & ? & ? & ?). exists 1%nat, resp. auto.
  - destruct (L0 eq_refl) as (resp & ? & ? & ?). exists 0%nat, resp. auto.
Qed.

(** The list of the second answer of a service that fails once. *)
Lemma fetchReviewers_list_from_success_witness :
  exists n resp,
    (n <= 2)%nat /\ failsOnce n = Resolves resp /\ ok resp = true
    /\ parseReviewers resp = Normal [JString "reviewer1"; JString "reviewer2"].
Proof.
  apply (fetchReviewers_list_from_success failsOnce "test-api-key" "p2" false).
  reflexivity.
Defined.

(** ** The action *)

Lemma reviewRequests_app (a b : list action) :
  reviewRequests (a ++ b) = (reviewRequests a ++ reviewRequests b)%list.
Proof. apply flat_map_app. Qed.

Lemma failures_app (a b : list action) :
  failures (a ++ b) = (failures a ++ failures b)%list.
Proof. apply flat_map_app. Qed.

Lemma serviceCalls_app (a b : list action) :
  serviceCalls (a ++ b) = (serviceCalls a ++ serviceCalls b)%list.
Proof. apply flat_map_app. Qed.

Lemma reviewRequests_Did (evs : list event) : reviewRequests (map Did evs) = [].
Proof. induction evs; [reflexivity | exact IHevs]. Qed.

Lemma failures_Did (evs : list event) : failures (map Did evs) = [].
Proof. induction evs; [reflexivity | exact IHevs]. Qed.

Lemma serviceCalls_Did (evs : list event) : serviceCalls (map Did evs) = fetchCalls evs.
Proof.
  induction evs as [|ev evs IH]; [reflexivity |].
  change (serviceCalls (map Did (ev :: evs)))
    with ((match ev with Fetched req => [req] | _ => [] end)
            ++ serviceCalls (map Did evs))%list.
  rewrite IH. reflexivity.
Qed.

(** What the filter of [run] keeps: the strings of the pool that differ
    from the author, letter case apart; and it throws exactly when the
    pool holds an entry that is no string. *)
Lemma filterEligible_spec (availableReviewers : list json) (prAuthor : string) :
  match filterEligible availableReviewers prAuthor with
  | Normal eligible =>
      (exists names, availableReviewers = map JString names
                     /\ eligible = eligibleReviewers names prAuthor)
  | Throw e =>
      e = mkError "TypeError" "reviewer.toLowerCase is not a function"
      /\ exists entry, In entry availableReviewers
                       /\ forall name, entry <> JString name
  end.
Proof.
  induction availableReviewers as [|entry rest IH]; cbn [filterEligible].
  - now exists [].
  - assert (T : (forall name, entry <> JString name) ->
              mkError "TypeError" "reviewer.toLowerCase is not a function"
              = mkError "TypeError" "reviewer.toLowerCase is not a function"
              /\ exists bad, In bad (entry :: rest) /\ forall name, bad <> JString name)
      by (intros H; split; [reflexivity | exists entry; split; [now left | exact H]]).
    destruct entry as [| b | z | s | items | fields];
      try (apply T; intros name; discriminate).
    destruct (filterEligible rest prAuthor) as [eligible | e].
    + destruct IH as (names & -> & ->).
      destruct (negb (toLowerCase s =? toLowerCase prAuthor)%string) eqn:D;
        exists (s :: names); (split; [reflexivity |]);
        unfold eligibleReviewers; cbn [filter]; now rewrite D.
    + destruct IH as (-> & bad & I & B). split; [reflexivity |].
      exists bad. split; [now right | exact B].
Qed.

(** A pool that is not empty gives one of its entries. *)
Lemma selectRandomReviewer_member (reviewers : list string) (seed : string) (prNumber : Z) :
  reviewers <> [] ->
  exists r, selectRandomReviewer reviewers seed prNumber = Normal (Some r)
            /\ In r reviewers.
Proof.
  intros H.
  assert (L : (1 <= List.length reviewers)%nat)
    by (destruct reviewers; [contradiction | simpl; lia]).
  rewrite (selectRandomReviewer_at_index reviewers seed prNumber L).
  destruct (nth_error reviewers _) as [r |] eqn:E.
  - exists r. split; [reflexivity | eapply nth_error_In; eauto].
  - apply nth_error_None in E.
    destruct (Nat.eqb (List.length reviewers) 1); [lia |].
    pose proof (proj2 (index_in_range
                         (hashLoop (String_of (randomSeed seed prNumber)) 0)
                         (List.length reviewers) ltac:(lia))). lia.
Qed.

(** Counts the review requests and the failures of the actions at hand. *)
Ltac tally :=
  cbn [fst snd];
  rewrite ?reviewRequests_app, ?failures_app, ?serviceCalls_app,
    ?reviewRequests_Did, ?failures_Did, ?serviceCalls_Did;
  cbn [reviewRequests failures serviceCalls flat_map app].

(** X16.  A run requests at most one review: for the pull request of the event,
    from one reviewer, who is an identity the service returned and who is
    not the author of the pull request, letter case apart. *)
Theorem run_requests_eligible_reviewer (env : environment) :
  reviewRequests (run env) = []
  \/ exists reviewer names apiKey urgency failOnApiError,
       reviewRequests (run env)
       = [(envRepoOwner env, envRepoName env, envPullNumber env, [Some reviewer])]
       /\ snd (fetchReviewers (envService env) apiKey urgency failOnApiError)
          = Normal (Some (map JString names))
       /\ In reviewer names
       /\ toLowerCase reviewer <> toLowerCase (envPullAuthor env).
Proof.
  unfold run, runSteps.
  destruct (getRequiredInput env "cr_cab_api_key") as [apiKey | e0];
    [| left; reflexivity].
  cbv zeta.
  destruct (negb (envEventName env =? "pull_request")%string); [left; reflexivity |].
  match goal with
  | |- context [fetchReviewers ?n ?k ?u ?f] =>
      set (key := k) in *; set (urgency := u) in *; set (flag := f) in *;
      destruct (fetchReviewers n key urgency flag) as [fetched result] eqn:F0
  end.
  assert (F : snd (fetchReviewers (envService env) key urgency flag) = result)
    by now rewrite F0.
  clear F0.
  destruct result as [[available |] | error].
  - destruct (Nat.eqb (List.length available) 0); [left; now tally |].
    pose proof (filterEligible_spec available (envPullAuthor env)) as E.
    destruct (filterEligible available (envPullAuthor env)) as [eligible | e1];
      [| left; now tally].
    destruct E as (names & -> & ->).
    destruct (Nat.eqb_spec (List.length (eligibleReviewers names (envPullAuthor env))) 0)
      as [Z | NZ]; [left; now tally |].
    destruct (selectRandomReviewer_member
                (eligibleReviewers names (envPullAuthor env))
                (getInput env "seed") (envPullNumber env)) as (reviewer & S & I).
    { intros E. rewrite E in NZ. now apply NZ. }
    rewrite S.
    destruct (tokenMissing env); [left; now tally |].
    right. exists reviewer, names, key, urgency, flag.
    unfold eligibleReviewers in I. apply filter_In in I as [I D].
    apply negb_true_iff, String.eqb_neq in D.
    split; [| now repeat split].
    destruct (envReviewRequest env); now tally.
  - left. now tally.
  - left. destruct flag; now tally.
Qed.

(** The run of the end-to-end example of the specification: the pool is
    [alice] and [bob], the author is [alice], and the review is requested
    from [bob]. *)
Lemma run_requests_eligible_reviewer_witness :
  reviewRequests (run exampleEnvironment) = [("crCab", "demo", 42, [Some "bob"])].
Proof.
  destruct (run_requests_eligible_reviewer exampleEnvironment)
    as [E | (reviewer & names & key & urgency & flag & E & _)].
  - vm_compute in E. discriminate E.
  - vm_compute. reflexivity.
Defined.

Lemma run_fetch_result (env : environment) (resp : response) (rs : list json)
    (apiKey urgency : string) (failOnApiError : bool) :
  envService env 0%nat = Resolves resp -> ok resp = true ->
  parseReviewers resp = Normal rs ->
  fetchReviewers (envService env) apiKey urgency failOnApiError
  = ([Fetched (fetchRequest apiKey urgency)], Normal (Some rs)).
Proof.
  intros N K P. unfold fetchReviewers. cbn [retryLoop maxRetries Nat.leb].
  now rewrite N, (attemptBody_success _ _ _ _ resp rs K P).
Qed.

(** X17.  An identity that is no string fails the step: when the service
    returns a list with such an identity (the [githubUsername] of a record
    may be a number), [run] requests no review and reports the
    [TypeError] of the filter as the failure of the step. *)
Theorem run_fails_on_identity_that_is_no_string
    (env : environment) (resp : response) (available : list json) (entry : json) :
  envInput env "cr_cab_api_key" <> "" ->
  envEventName env = "pull_request" ->
  envService env 0%nat = Resolves resp -> ok resp = true ->
  parseReviewers resp = Normal available ->
  In entry available -> (forall name, entry <> JString name) ->
  reviewRequests (run env) = []
  /\ failures (run env) = ["reviewer.toLowerCase is not a function"].
Proof.
  intros Key Ev N K P I B. unfold run, runSteps, getRequiredInput.
  destruct (String.eqb_spec (envInput env "cr_cab_api_key") ""); [contradiction |].
  rewrite Ev. cbn [String.eqb Ascii.eqb Bool.eqb negb]. cbv zeta.
  rewrite (run_fetch_result env resp available _ _ _ N K P).
  destruct (Nat.eqb_spec (List.length available) 0) as [Z | _].
  - destruct available; [contradiction | discriminate].
  - pose proof (filterEligible_spec available (envPullAuthor env)) as E.
    destruct (filterEligible available (envPullAuthor env)) as [eligible | e].
    + destruct E as (names & -> & _). apply in_map_iff in I as (name & <- & _).
      now contradiction (B name).
    + destruct E as [-> _]. split; now tally.
Qed.

(** A service that gives the number 42 for an identity. *)
Lemma run_fails_on_identity_that_is_no_string_witness :
  reviewRequests (run numberedEnvironment) = []
  /\ failures (run numberedEnvironment) = ["reviewer.toLowerCase is not a function"].
Proof.
  apply (run_fails_on_identity_that_is_no_string numberedEnvironment
           (mkResponse true 200 "OK"
              (Normal (JArray [JObject [("githubUsername", JNumber 42)]])))
           [JNumber 42] (JNumber 42));
    try reflexivity; try discriminate.
  - now left.
Defined.

(** How a call of [fetchReviewers] can end, with what each ending tells. *)
Lemma fetchReviewers_ending
    (network : nat -> fetchOutcome) (apiKey urgency : string) (failOnApiError : bool) :
  match snd (fetchReviewers network apiKey urgency failOnApiError) with
  | Normal None => failOnApiError = false
  | Normal (Some rs) =>
      exists n resp,
        (n <= 2)%nat /\ network n = Resolves resp /\ ok resp = true
        /\ parseReviewers resp = Normal rs
  | Throw e =>
      failOnApiError = true /\ exists m, e = Error ("CR Cab API network error: " ++ m)
  end.
Proof.
  pose proof (attemptBody_returns_list apiKey urgency failOnApiError 0
                (network 0%nat)) as L0.
  pose proof (attemptBody_returns_list apiKey urgency failOnApiError 1
                (network 1%nat)) as L1.
  pose proof (attemptBody_returns_list apiKey urgency failOnApiError 2
                (network 2%nat)) as L2.
  by_turns network apiKey urgency failOnApiError; auto.
  - destruct v2 as [rs |]; [| auto].
    destruct (L2 rs eq_refl) as (resp & ? & ? & ?). exists 2%nat, resp. auto.
  - destruct v1 as [rs |]; [| auto].
    destruct (L1 rs eq_refl) as (resp & ? & ? & ?). exists 1%nat, resp. auto.
  - destruct v0 as [rs |]; [| auto].
    destruct (L0 rs eq_refl) as (resp & ? & ? & ?). exists 0%nat, resp. auto.
Qed.

(** X18.  A service that never gives a success answer to the three requests
    (it answers with an error status, or the network fails) leaves the
    pull request without a review request, and the input
    [failOnApiError] decides about the step: set to [true], the step
    fails with the one message [CR Cab API network error: ...]; otherwise
    the step does not fail. *)
Theorem run_api_failure_follows_input (env : environment) :
  envInput env "cr_cab_api_key" <> "" ->
  envEventName env = "pull_request" ->
  (forall n resp, (n <= 2)%nat -> envService env n = Resolves resp -> ok resp = false) ->
  reviewRequests (run env) = []
  /\ if String.eqb (getInput env "failOnApiError") "true"
     then exists m, failures (run env) = ["CR Cab API network error: " ++ m]
     else failures (run env) = [].
Proof.
  intros Key Ev Down. unfold run, runSteps, getRequiredInput.
  destruct (String.eqb_spec (envInput env "cr_cab_api_key") ""); [contradiction |].
  rewrite Ev. cbn [String.eqb Ascii.eqb Bool.eqb negb]. cbv zeta.
  match goal with
  | |- context [fetchReviewers ?n ?k ?u ?f] =>
      set (key := k) in *; set (urgency := u) in *; set (flag := f) in *;
      pose proof (fetchReviewers_ending n key urgency flag) as E;
      destruct (fetchReviewers n key urgency flag) as [fetched result]
  end.
  cbn [snd] in E.
  destruct result as [[available |] | error].
  - destruct E as (turn & resp & B & N & K & _).
    rewrite (Down turn resp B N) in K. discriminate K.
  - rewrite E. split; now tally.
  - destruct E as (-> & m & ->). split; [now tally |].
    exists m. now tally.
Qed.

(** A service that answers every request with a 500, in both modes. *)
Lemma run_api_failure_follows_input_witness :
  (reviewRequests (run (downEnvironment false)) = []
   /\ failures (run (downEnvironment false)) = [])
  /\ (reviewRequests (run (downEnvironment true)) = []
      /\ exists m, failures (run (downEnvironment true))
                   = ["CR Cab API network error: " ++ m]).
Proof.
  split.
  - apply (run_api_failure_follows_input (downEnvironment false)).
    + discriminate.
    + reflexivity.
    + intros n resp _ [= <-]. reflexivity.
  - apply (run_api_failure_follows_input (downEnvironment true)).
    + discriminate.
    + reflexivity.
    + intros n resp _ [= <-]. reflexivity.
Defined.

Lemma diagnostics_LogWarning (msg : string) (evs : list event) :
  In (LogWarning msg) evs -> In msg (diagnostics evs).
Proof.
  intros I. unfold diagnostics. apply in_flat_map.
  exists (LogWarning msg). split; [exact I | now left].
Qed.

(** X19.  The second [catch] of [run] around the call of [fetchReviewers] never
    logs: its warning [Failed to fetch reviewers: ...] is for a call that
    throws in the lenient mode, which no call does, and no other line of
    a run begins with these words. *)
Theorem run_never_warns_of_failed_fetch (env : environment) (text : string) :
  ~ In (Did (LogWarning ("Failed to fetch reviewers: " ++ text))) (run env).
Proof.
  assert (W : forall key urgency flag,
            ~ In (Did (LogWarning ("Failed to fetch reviewers: " ++ text)))
                 (map Did (fst (fetchReviewers (envService env) key urgency flag)))).
  { intros key urgency flag I. apply in_map_iff in I as (ev & [= ->] & I).
    apply diagnostics_LogWarning in I.
    pose proof (retryLoop_wellWorded (envService env) urgency flag key
                  (S maxRetries) 0) as A.
    unfold wellWorded in A. rewrite Forall_forall in A.
    specialize (A _ I). discriminate A. }
  unfold run, runSteps.
  destruct (getRequiredInput env "cr_cab_api_key") as [apiKey | e0];
    [| cbn [app In]; intros [I | []]; discriminate I].
  cbv zeta.
  destruct (negb (envEventName env =? "pull_request")%string);
    [cbn [In]; intros [I | [I | []]]; discriminate I |].
  match goal with
  | |- context [fetchReviewers ?n ?k ?u ?f] =>
      set (key := k) in *; set (urgency := u) in *; set (flag := f) in *;
      pose proof (fetchReviewers_ending n key urgency flag) as E;
      specialize (W key urgency flag);
      destruct (fetchReviewers n key urgency flag) as [fetched result]
  end.
  cbn [fst snd] in E, W.
  assert (B : forall rest,
            ~ In (Did (LogWarning ("Failed to fetch reviewers: " ++ text))) rest ->
            ~ In (Did (LogWarning ("Failed to fetch reviewers: " ++ text)))
                 ([SetSecret apiKey;
                   Did (LogInfo ("Processing PR #" ++ decimal (envPullNumber env)
                                   ++ " by @" ++ envPullAuthor env));
                   Did (LogInfo ("Detected urgency: " ++ urgency))] ++ rest)%list).
  { intros rest R. cbn [app In]. intros [I | [I | [I | I]]];
      [discriminate I | discriminate I | discriminate I | exact (R I)]. }
  destruct result as [[available |] | error].
  - repeat match goal with
           | |- context [if ?b then _ else _] => destruct b
           | |- context [match ?c with Normal _ => _ | Throw _ => _ end] => destruct c
           end;
      cbn [fst snd]; rewrite <- ?app_assoc; apply B;
      rewrite ?in_app_iff; cbn [In]; intuition (try discriminate).
  - cbn [fst snd]. rewrite <- ?app_assoc. apply B.
    rewrite ?in_app_iff. cbn [In]. intuition (try discriminate).
  - destruct E as [-> _]. cbn [fst snd]. rewrite <- ?app_assoc. apply B.
    rewrite ?in_app_iff. cbn [In]. intuition (try discriminate).
Qed.

(** X20.  The key is masked before it is used: a run that has the key begins by
    registering it as a secret, before any line is logged and any request
    is sent; every request it then sends to the service carries that very
    key in its [Authorization] header, and asks for one of the three
    severities [p0], [p1] and [p2], whatever the labels of the checkboxes
    are. *)
Theorem run_masks_key_before_use (env : environment) :
  run env = [SetFailed "Input required and not supplied: cr_cab_api_key"]
  \/ (exists rest, run env = SetSecret (getInput env "cr_cab_api_key") :: rest)
     /\ Forall (fun req => exists tier,
                    req = fetchRequest (getInput env "cr_cab_api_key") (tierString tier))
          (serviceCalls (run env)).
Proof.
  unfold run, runSteps, getRequiredInput, getInput.
  destruct (String.eqb (envInput env "cr_cab_api_key") ""); [left; reflexivity |].
  right. cbv zeta.
  destruct (negb (envEventName env =? "pull_request")%string);
    [split; [eexists; reflexivity | constructor] |].
  match goal with
  | |- context [fetchReviewers ?n ?k (tierString ?t) ?f] =>
      set (key := k) in *; set (tier := t) in *; set (flag := f) in *;
      pose proof (retryLoop_requests n (tierString tier) flag key (S maxRetries) 0) as R;
      fold (fetchReviewers n key (tierString tier) flag) in R;
      destruct (fetchReviewers n key (tierString tier) flag) as [fetched result]
  end.
  cbn [fst] in R.
  assert (Q : Forall (fun req => exists t, req = fetchRequest key (tierString t))
                (fetchCalls fetched))
    by (eapply Forall_impl; [| exact R]; intros req ->; now exists tier).
  destruct result as [[available |] | error];
    repeat match goal with
           | |- context [if ?b then _ else _] => destruct b
           | |- context [match ?c with Normal _ => _ | Throw _ => _ end] => destruct c
           end;
    (split; [cbn [fst snd]; rewrite <- ?app_assoc; eexists; reflexivity |]);
    tally; rewrite ?app_nil_r; exact Q.
Qed.

(** ** The two revisions of [fetchReviewers] *)

(** What the first revision returns is the array of a success answer of
    one of the two shapes. *)
Lemma fetchReviewersOriginal_returns network apiKey urgency (items : list json) :
  snd (fetchReviewersOriginal network apiKey urgency) = Normal items ->
  exists resp data,
    network 0%nat = Resolves resp /\ ok resp = true /\ body resp = Normal data
    /\ payloadOf data items.
Proof.
  unfold fetchReviewersOriginal. cbn [snd].
  destruct (network 0%nat) as [resp | e]; [| discriminate].
  destruct (ok resp) eqn:K; cbn [negb]; [| discriminate].
  destruct (body resp) as [data | e] eqn:B; [| discriminate].
  intros H. exists resp, data. repeat split; trivial.
  destruct data as [| b | z | s | entries | fields]; cbn [getProperty] in H;
    try discriminate H.
  - injection H as ->. now left.
  - right. exists fields. split; [reflexivity |].
    destruct (lookupField "reviewers" fields) as [[| b | z | s | entries | fs] |];
      try discriminate H.
    now injection H as ->.
Qed.

(** X21.  The retrying revision keeps the successes of the first one: when the
    first revision returns a list whose entries are strings or records
    with a [githubUsername], the second revision sends the same single
    request, writes no diagnostic, and returns the identities of the same
    entries in the same order, in both modes; a list of strings is
    returned as the first revision returned it. *)
Theorem fetchReviewers_keeps_first_revision_success
    (network : nat -> fetchOutcome) (apiKey urgency : string) (failOnApiError : bool)
    (items : list json) (names : list string) :
  snd (fetchReviewersOriginal network apiKey urgency) = Normal items ->
  Forall2 carries items names ->
  fst (fetchReviewers network apiKey urgency failOnApiError)
  = fst (fetchReviewersOriginal network apiKey urgency)
  /\ snd (fetchReviewers network apiKey urgency failOnApiError)
     = Normal (Some (map JString names))
  /\ (items = map JString names ->
      snd (fetchReviewers network apiKey urgency failOnApiError)
      = match snd (fetchReviewersOriginal network apiKey urgency) with
        | Normal list => Normal (Some list)
        | Throw e => Throw e
        end).
Proof.
  intros O C.
  destruct (fetchReviewersOriginal_returns _ _ _ _ O) as (resp & data & N & K & B & P).
  assert (R : parseReviewers resp = Normal (map JString names)).
  { unfold parseReviewers. rewrite B.
    destruct P as [-> | (fields & -> & L)].
    - now apply normalizeReviewers_carried.
    - cbn [getProperty]. rewrite L. now apply normalizeReviewers_carried. }
  rewrite O.
  unfold fetchReviewers. cbn [retryLoop maxRetries Nat.leb]. rewrite N.
  rewrite (attemptBody_success _ _ _ _ resp _ K R). cbn [fst snd].
  repeat split. now intros ->.
Qed.

(** The record answer of the repository's tests. *)
Lemma fetchReviewers_keeps_first_revision_success_witness :
  fst (fetchReviewers (always (Resolves recordAnswer)) "test-api-key" "p2" false)
  = fst (fetchReviewersOriginal (always (Resolves recordAnswer)) "test-api-key" "p2")
  /\ snd (fetchReviewers (always (Resolves recordAnswer)) "test-api-key" "p2" false)
     = Normal (Some (map JString ["reviewer1"; "reviewer2"])).
Proof.
  destruct (fetchReviewers_keeps_first_revision_success
              (always (Resolves recordAnswer)) "test-api-key" "p2" false
              [JObject [("githubUsername", JString "reviewer1")];
               JObject [("githubUsername", JString "reviewer2")]]
              ["reviewer1"; "reviewer2"]) as (E & R & _).
  - reflexivity.
  - apply Forall2_cons; [| apply Forall2_cons; [| apply Forall2_nil]];
      right; eexists; (split; [reflexivity |]); (split; [reflexivity | discriminate]).
  - split; [exact E | exact R].
Defined.
